(** * Shapes calculator: the validated calculation service

    A shallow embedding of [backend/shapes_models.py] (the geometry
    engine) and of the request model and the three POST handlers of
    [backend/application_infastructructure.py], followed by the
    properties of the service.

    Python's [float] is IEEE 754 binary64.  It is modelled by the
    Standard Library's [spec_float] at precision 53 and maximal
    exponent 1024, so that NaN, the infinities, signed zeros, rounding
    and overflow are the ones the interpreter computes with. *)

From Stdlib Require Import ZArith List String Bool Lia DecimalString.
From Stdlib Require Import Floats.SpecFloat.
Import ListNotations.

Local Open Scope string_scope.
Local Open Scope Z_scope.

(** ** Binary64 values and the operations the program uses *)

Module Float64.

Definition prec : Z := 53.
Definition emax : Z := 1024.

Definition float : Type := spec_float.

Definition mul : float -> float -> float := SFmul prec emax.
Definition add : float -> float -> float := SFadd prec emax.
Definition div : float -> float -> float := SFdiv prec emax.
Definition leb : float -> float -> bool := SFleb.
Definition ltb : float -> float -> bool := SFltb.
Definition eqb : float -> float -> bool := SFeqb.
Definition fabs : float -> float := SFabs.
Definition neg : float -> float := SFopp.

(** Conversion of a Python [int] to [float] (round to nearest even). *)
Definition of_int (n : Z) : float := binary_normalize prec emax n 0 false.

Definition nan : float := S754_nan.
Definition inf : float := S754_infinity false.
Definition neg_inf : float := S754_infinity true.

Definition isnan (x : float) : bool :=
  match x with S754_nan => true | _ => false end.

Definition isinf (x : float) : bool :=
  match x with S754_infinity _ => true | _ => false end.

Definition isfinite (x : float) : bool :=
  match x with S754_zero _ | S754_finite _ _ _ => true | _ => false end.

(** A well-formed binary64 datum: canonical mantissa, exponent in range. *)
Definition well_formed (x : float) : bool := valid_binary prec emax x.

End Float64.

Import Float64.

Declare Scope f64_scope.
Delimit Scope f64_scope with f64.
Infix "*" := mul : f64_scope.
Infix "+" := add : f64_scope.
Infix "<=?" := leb : f64_scope.
Infix "<?" := ltb : f64_scope.
Infix "=?" := eqb : f64_scope.

(** ** Python values the two modules rely on *)

(** [math.pi], the double nearest to pi: 0x1.921fb54442d18p+1. *)
Definition math_pi : float := S754_finite false 7074237752028440 (-51).

(** [1/2] on Python ints is true division and yields the float 0.5. *)
Definition int_truediv (a b : Z) : float := div (of_int a) (of_int b).

(** [errno] values set by the C library. *)
Definition ERANGE : Z := 34.
Definition EDOM : Z := 33.

(** *** Exceptions

    The arguments of an exception are either the pair (errno, strerror)
    that [PyErr_SetFromErrno] builds, or one message. *)
Inductive Args : Type :=
| Errno (errno : Z) (strerror : string)
| Message (m : string).

Inductive Exception : Type :=
| OverflowError (args : Args)
| ValueError (args : Args)
| HTTPException (status_code : Z) (detail : string).

Definition decimal (n : Z) : string := NilZero.string_of_int (Z.to_int n).

Definition str_args (a : Args) : string :=
  match a with
  | Errno n s => "(" ++ decimal n ++ ", '" ++ s ++ "')"
  | Message m => m
  end.

(** [str(e)].  Starlette prints an [HTTPException] as status, colon,
    detail; the builtin exceptions print their arguments. *)
Definition str (e : Exception) : string :=
  match e with
  | OverflowError a => str_args a
  | ValueError a => str_args a
  | HTTPException c d => decimal c ++ ": " ++ d
  end.

(** *** The instance and the monad of method bodies

    [Routes] inherits from [App] and [ShapesCalculator]; the attributes
    that [App.__init__] stores are the whole state a method can reach
    through [self].  A method body is a state transformer that returns a
    value or raises. *)
Record Routes : Type := mkRoutes {
  title : string;
  description : string;
  version : string
}.

Definition Py (A : Type) : Type := Routes -> (Exception + A) * Routes.

Definition ret {A : Type} (a : A) : Py A := fun self => (inr a, self).

Definition raise {A : Type} (e : Exception) : Py A := fun self => (inl e, self).

Definition bind {A B : Type} (m : Py A) (k : A -> Py B) : Py B :=
  fun self =>
    match m self with
    | (inl e, self') => (inl e, self')
    | (inr a, self') => k a self'
    end.

(** [try: body except Exception as e: handler e] *)
Definition try_except {A : Type} (body : Py A) (handler : Exception -> Py A) : Py A :=
  fun self =>
    match body self with
    | (inl e, self') => handler e self'
    | (inr a, self') => (inr a, self')
    end.

(** An operation of the interpreter that touches no object. *)
Definition lift {A : Type} (r : Exception + A) : Py A := fun self => (r, self).

Notation "x <- m ;; k" := (bind m (fun x => k))
  (at level 61, m at next level, right associativity).

(** A JSON object under construction: keys in insertion order. *)
Definition dict : Type := list (string * float).

Definition keys (d : dict) : list string := map fst d.

(** ** The C library

    CPython hands [x ** y] on floats to the C library's [pow] and reads
    [errno] afterwards.  The development is parametric in that function
    and in [strerror]; the instance below is used where a closed value
    is needed.  It returns the correctly rounded square at exponent 2.0,
    the only exponent the program passes, with [ERANGE] on overflow and
    on underflow to zero, and a domain error elsewhere. *)
Definition pow_rounded (x y : float) : float * Z :=
  if (y =? of_int 2)%f64 then
    let z := (x * x)%f64 in
    (z, if isinf z || (z =? of_int 0)%f64 then ERANGE else 0)
  else (nan, EDOM).

Definition strerror_glibc (n : Z) : string :=
  if n =? ERANGE then "Numerical result out of range"
  else if n =? EDOM then "Numerical argument out of domain"
  else "Unknown error " ++ decimal n.

(** ** The request model: [class Shapes(BaseModel)] *)

Record Shapes : Type := mkShapes {
  radius : option float;
  base : option float;
  height : option float;
  length : option float;
  width : option float
}.

(** The five attributes, in declaration order. *)
Inductive field : Type := f_radius | f_base | f_height | f_length | f_width.

Definition model_fields : list field :=
  [f_radius; f_base; f_height; f_length; f_width].

Definition field_name (f : field) : string :=
  match f with
  | f_radius => "radius"
  | f_base => "base"
  | f_height => "height"
  | f_length => "length"
  | f_width => "width"
  end.

Definition getattr (s : Shapes) (f : field) : option float :=
  match f with
  | f_radius => radius s
  | f_base => base s
  | f_height => height s
  | f_length => length s
  | f_width => width s
  end.

(** [Shapes.value_must_be_positive]: the comparison is Python's
    [v <= 0] on a float, false on NaN. *)
Definition value_must_be_positive (v : option float) : Exception + option float :=
  match v with
  | Some x =>
      if (x <=? of_int 0)%f64
      then inl (ValueError (Message "The value you entered must be positive"))
      else inr v
  | None => inr v
  end.

(** One entry of the error list of a rejected request body. *)
Record ErrorDetails : Type := mkErrorDetails {
  type : string;
  loc : string;
  msg : string;
  input : option float
}.

(** Pydantic runs the validator of a field and turns a [ValueError]
    into an error entry for that field. *)
Definition run_validator (f : field) (v : option float)
  : list ErrorDetails * option float :=
  match value_must_be_positive v with
  | inl e =>
      ([mkErrorDetails "value_error" (field_name f) ("Value error, " ++ str e) v],
       None)
  | inr v' => ([], v')
  end.

(** Construction of a [Shapes] instance from a decoded body whose
    entries are floats or absent: every field is validated, all errors
    are collected, and the instance exists only if there is none. *)
Definition Shapes_validate (body : Shapes) : list ErrorDetails + Shapes :=
  let '(e1, v1) := run_validator f_radius (radius body) in
  let '(e2, v2) := run_validator f_base (base body) in
  let '(e3, v3) := run_validator f_height (height body) in
  let '(e4, v4) := run_validator f_length (length body) in
  let '(e5, v5) := run_validator f_width (width body) in
  match (e1 ++ e2 ++ e3 ++ e4 ++ e5)%list with
  | [] => inr (mkShapes v1 v2 v3 v4 v5)
  | errors => inl errors
  end.

(** How a POST on a route ends: the handler returned this object, an
    exception left the handler, or the body was refused before the
    handler was called.  The encoding of a returned object as JSON is
    the framework's and lies outside the model. *)
Inductive Outcome : Type :=
| Returned (result : dict)
| Raised (e : Exception)
| Unprocessable (errors : list ErrorDetails).

Inductive route : Type := circle | rectangle | triangle.

Section Platform.

Variable libm_pow : float -> float -> float * Z.
Variable strerror : Z -> string.

(** *** [float ** 2]

    CPython's [float_pow] at the exponent 2.0 that [circle_area]
    passes: the tests on the exponent are resolved (it is finite,
    positive and an even integer), the tests on the base are kept in
    their order, and the result of the C library goes through
    [_Py_ADJUST_ERANGE1]. *)
Definition float_pow_2 (iv : float) : Exception + float :=
  if isnan iv then inr iv
  else if isinf iv then inr (fabs iv)
  else if (iv =? of_int 0)%f64 then inr (of_int 0)
  else
    let iv := if (iv <? of_int 0)%f64 then neg iv else iv in
    if (iv =? of_int 1)%f64 then inr (of_int 1)
    else
      let '(ix, errno) := libm_pow iv (of_int 2) in
      let errno :=
        if errno =? 0 then (if isinf ix then ERANGE else 0)
        else if (errno =? ERANGE) && (ix =? of_int 0)%f64 then 0
        else errno in
      if errno =? 0 then inr ix
      else if errno =? ERANGE
           then inl (OverflowError (Errno errno (strerror errno)))
           else inl (ValueError (Errno errno (strerror errno))).

(** *** [class ShapesCalculator] *)

Definition circle_area (radius : float) : Py float :=
  sq <- lift (float_pow_2 radius) ;;
  ret (math_pi * sq)%f64.

Definition circle_circumference (radius : float) : Py float :=
  ret (of_int 2 * math_pi * radius)%f64.

Definition rectangle_area (length width : float) : Py float :=
  ret (length * width)%f64.

Definition rectangle_perimeter (length width : float) : Py float :=
  ret (of_int 2 * (length + width))%f64.

Definition triangle_area (height base : float) : Py float :=
  ret (int_truediv 1 2 * height * base)%f64.

(** *** The POST handlers of [Routes.api_routes] *)

Definition calculate_circle (shape : Shapes) : Py dict :=
  match radius shape with
  | None => raise (HTTPException 400 "Radius is required")
  | Some r =>
      try_except
        (area <- circle_area r ;;
         circumference <- circle_circumference r ;;
         ret [("area", area); ("circumference", circumference)])
        (fun e => raise (HTTPException 500 (str e)))
  end.

Definition calculate_rectangle (shape : Shapes) : Py dict :=
  match length shape, width shape with
  | Some l, Some w =>
      try_except
        (area <- rectangle_area l w ;;
         perimeter <- rectangle_perimeter l w ;;
         ret [("area", area); ("perimeter", perimeter)])
        (fun e => raise (HTTPException 500 (str e)))
  | _, _ => raise (HTTPException 400 "Length and width are required")
  end.

Definition calculate_triangle (shape : Shapes) : Py dict :=
  match base shape, height shape with
  | Some b, Some h =>
      try_except
        (area <- triangle_area h b ;;
         ret [("area", area)])
        (fun e => raise (HTTPException 500 (str e)))
  | _, _ => raise (HTTPException 400 "Base and height are required")
  end.

Definition api_routes (r : route) : Shapes -> Py dict :=
  match r with
  | circle => calculate_circle
  | rectangle => calculate_rectangle
  | triangle => calculate_triangle
  end.

(** A POST on a route: FastAPI builds the [Shapes] argument of the
    handler from the body and answers with the validation errors when
    that fails; otherwise the handler runs. *)
Definition post (r : route) (body : Shapes) : Routes -> Outcome * Routes :=
  fun self =>
    match Shapes_validate body with
    | inl errors => (Unprocessable errors, self)
    | inr shape =>
        match api_routes r shape self with
        | (inl e, self') => (Raised e, self')
        | (inr result, self') => (Returned result, self')
        end
    end.

(** ** Vocabulary of the properties *)

(** The attributes a handler tests against [None] before computing. *)
Definition required (r : route) : list field :=
  match r with
  | circle => [f_radius]
  | rectangle => [f_length; f_width]
  | triangle => [f_base; f_height]
  end.

(** The detail of the 400 answer of a handler. *)
Definition required_detail (r : route) : string :=
  match r with
  | circle => "Radius is required"
  | rectangle => "Length and width are required"
  | triangle => "Base and height are required"
  end.

(** The keys of the object a handler returns. *)
Definition result_keys (r : route) : list string :=
  match r with
  | circle => ["area"; "circumference"]
  | rectangle => ["area"; "perimeter"]
  | triangle => ["area"]
  end.

Definition field_eqb (f g : field) : bool :=
  match f, g with
  | f_radius, f_radius | f_base, f_base | f_height, f_height
  | f_length, f_length | f_width, f_width => true
  | _, _ => false
  end.

Definition is_required (r : route) (f : field) : bool :=
  existsb (field_eqb f) (required r).

(** Some required attribute of the route is absent from the body. *)
Definition lacks_required (r : route) (body : Shapes) : bool :=
  existsb (fun f => match getattr body f with None => true | Some _ => false end)
          (required r).

(** No present attribute is rejected by the validator. *)
Definition passes (body : Shapes) : Prop :=
  forall f x, getattr body f = Some x -> (x <=? of_int 0)%f64 = false.

(** The same, as a test. *)
Definition accepted (body : Shapes) : bool :=
  forallb (fun f => match getattr body f with
                    | Some x => negb (x <=? of_int 0)%f64
                    | None => true
                    end)
          model_fields.

(** A finite number strictly greater than zero. *)
Definition positive_finite (x : float) : bool :=
  isfinite x && (of_int 0 <? x)%f64.

(** An input that passes validation in the sense of the specification:
    the required attributes of the route are present, and every present
    attribute is finite and strictly positive. *)
Definition valid_input (r : route) (body : Shapes) : bool :=
  forallb (fun f => match getattr body f with
                    | Some x => positive_finite x
                    | None => negb (is_required r f)
                    end)
          model_fields.

(** The error entry of a rejected attribute. *)
Definition rejection (f : field) (x : float) : ErrorDetails :=
  mkErrorDetails "value_error" (field_name f)
    "Value error, The value you entered must be positive" (Some x).

(** The object [calculate_circle] builds from the square of the radius. *)
Definition circle_result (r sq : float) : dict :=
  [("area", (math_pi * sq)%f64);
   ("circumference", (of_int 2 * math_pi * r)%f64)].

Definition rectangle_result (l w : float) : dict :=
  [("area", (l * w)%f64); ("perimeter", (of_int 2 * (l + w))%f64)].

Definition triangle_result (b h : float) : dict :=
  [("area", (int_truediv 1 2 * h * b)%f64)].

(** The answer of a handler, as an outcome. *)
Definition outcome_of (r : Exception + dict) : Outcome :=
  match r with
  | inl e => Raised e
  | inr result => Returned result
  end.

(** Sample data. *)
Definition self0 : Routes :=
  mkRoutes "Shapes Calculator"
    "A web application to calculate areas and perimeters of shapes" "1.0.0".

Definition minus_one : float := of_int (-1).
Definition ten_to_200 : float := of_int (10 ^ 200).
Definition two_to_512 : float := of_int (2 ^ 512).
Definition ten_to_300 : float := of_int (10 ^ 300).

Definition empty_body : Shapes := mkShapes None None None None None.

Definition with_radius (x : float) : Shapes := mkShapes (Some x) None None None None.

Definition with_sides (l w : float) : Shapes :=
  mkShapes None None None (Some l) (Some w).

Definition with_base_height (b h : float) : Shapes :=
  mkShapes None (Some b) (Some h) None None.

(** The entries the validator produces for a body: one for each
    attribute whose value is at most zero, in declaration order. *)
Definition rejections (body : Shapes) : list ErrorDetails :=
  flat_map (fun f => match getattr body f with
                     | Some x => if (x <=? of_int 0)%f64 then [rejection f x] else []
                     | None => []
                     end)
           model_fields.

(** A number that the multiplication by 0.5 halves without rounding: a
    NaN, an infinity, a zero, or a normal number above the lowest
    binade (at least 2^-1021 in magnitude). *)
Definition halves_exactly (x : float) : bool :=
  match x with
  | S754_finite _ m e =>
      (digits2_pos m =? 53)%positive && (-1074 <? e) && (e <=? 971)
  | _ => true
  end.

(** Every value of a returned object is a number that is not negative
    (which excludes NaN). *)
Definition nonnegative_values (d : dict) : Prop :=
  Forall (fun kv => (of_int 0 <=? snd kv)%f64 = true) d.

(** The smallest positive double, 2^-1074. *)
Definition min_subnormal : float := S754_finite false 1 (-1074).

(** [q] times two to the power [j]. *)
Definition shift_left (q : positive) (j : nat) : positive := Nat.iter j xO q.

(** The number of binary places by which [q] falls short of 53. *)
Definition slack (q : positive) : nat := Z.to_nat (53 - Zpos (digits2_pos q)).

(** * Properties *)

(** ** Sanity checks of the number model *)

Example three_times_four : (of_int 3 * of_int 4)%f64 = of_int 12.
Proof. reflexivity. Qed.

Example one_half : int_truediv 1 2 = S754_finite false 4503599627370496 (-53).
Proof. reflexivity. Qed.

Example math_pi_well_formed : well_formed math_pi = true.
Proof. reflexivity. Qed.

Example str_overflow :
  str (OverflowError (Errno ERANGE (strerror_glibc ERANGE)))
  = "(34, 'Numerical result out of range')".
Proof. reflexivity. Qed.

(** ** Comparisons with zero *)

Lemma zero_ltb_not_leb (x : float) :
  (of_int 0 <? x)%f64 = true -> (x <=? of_int 0)%f64 = false.
Proof.
  destruct x as [s | s | | s m e]; try destruct s; cbv; congruence.
Qed.

Lemma positive_finite_not_leb (x : float) :
  positive_finite x = true -> (x <=? of_int 0)%f64 = false.
Proof.
  unfold positive_finite. intros H.
  apply andb_true_iff in H. now apply zero_ltb_not_leb.
Qed.

Lemma nan_not_leb : (nan <=? of_int 0)%f64 = false.
Proof. reflexivity. Qed.

Lemma inf_not_leb : (inf <=? of_int 0)%f64 = false.
Proof. reflexivity. Qed.

(** ** The validator and the construction of the model *)

Lemma In_model_fields (f : field) : In f model_fields.
Proof. destruct f; simpl; tauto. Qed.

Lemma run_validator_accepts (f : field) (v : option float) :
  (forall x, v = Some x -> (x <=? of_int 0)%f64 = false) ->
  run_validator f v = ([], v).
Proof.
  intros H. unfold run_validator, value_must_be_positive.
  destruct v as [x |]; [ | reflexivity ].
  now rewrite (H x eq_refl).
Qed.

Lemma run_validator_rejects (f : field) (x : float) :
  (x <=? of_int 0)%f64 = true ->
  run_validator f (Some x) = ([rejection f x], None).
Proof.
  intros H. unfold run_validator, value_must_be_positive.
  now rewrite H.
Qed.

Lemma run_validator_cases (f : field) (v : option float) :
  run_validator f v = ([], v)
  \/ exists x, v = Some x /\ (x <=? of_int 0)%f64 = true
               /\ run_validator f v = ([rejection f x], None).
Proof.
  destruct v as [x |].
  - destruct (x <=? of_int 0)%f64 eqn:E.
    + right. exists x. auto using run_validator_rejects.
    + left. apply run_validator_accepts. congruence.
  - left. reflexivity.
Qed.

Lemma Shapes_validate_errors (body : Shapes) :
  Shapes_validate body =
  match flat_map (fun f => fst (run_validator f (getattr body f))) model_fields with
  | [] => inr (mkShapes (snd (run_validator f_radius (radius body)))
                        (snd (run_validator f_base (base body)))
                        (snd (run_validator f_height (height body)))
                        (snd (run_validator f_length (length body)))
                        (snd (run_validator f_width (width body))))
  | errors => inl errors
  end.
Proof.
  unfold Shapes_validate. cbn [flat_map model_fields getattr].
  destruct (run_validator f_radius (radius body)) as [e1 v1].
  destruct (run_validator f_base (base body)) as [e2 v2].
  destruct (run_validator f_height (height body)) as [e3 v3].
  destruct (run_validator f_length (length body)) as [e4 v4].
  destruct (run_validator f_width (width body)) as [e5 v5].
  cbn [fst snd]. now rewrite app_nil_r.
Qed.

Lemma Shapes_validate_passes (body : Shapes) :
  passes body -> Shapes_validate body = inr body.
Proof.
  intros H. unfold Shapes_validate.
  change (radius body) with (getattr body f_radius).
  change (base body) with (getattr body f_base).
  change (height body) with (getattr body f_height).
  change (length body) with (getattr body f_length).
  change (width body) with (getattr body f_width).
  rewrite (run_validator_accepts f_radius _ (H f_radius)),
    (run_validator_accepts f_base _ (H f_base)),
    (run_validator_accepts f_height _ (H f_height)),
    (run_validator_accepts f_length _ (H f_length)),
    (run_validator_accepts f_width _ (H f_width)).
  now destruct body.
Qed.

Lemma Shapes_validate_rejected (body : Shapes) (f : field) (x : float) :
  getattr body f = Some x -> (x <=? of_int 0)%f64 = true ->
  exists errors,
    Shapes_validate body = inl errors /\ In (rejection f x) errors.
Proof.
  intros Hf Hx. rewrite Shapes_validate_errors.
  assert (Hin : In (rejection f x)
                   (flat_map (fun g => fst (run_validator g (getattr body g)))
                             model_fields)).
  { apply in_flat_map. exists f. split; [ apply In_model_fields | ].
    rewrite Hf, (run_validator_rejects f x Hx). now left. }
  destruct (flat_map _ model_fields) as [| e errors]; [ contradiction | ].
  now exists (e :: errors).
Qed.

Lemma passes_or_rejected (body : Shapes) :
  passes body
  \/ exists f x, getattr body f = Some x /\ (x <=? of_int 0)%f64 = true.
Proof.
  assert (Hone : forall f,
             (forall x, getattr body f = Some x -> (x <=? of_int 0)%f64 = false)
             \/ exists x, getattr body f = Some x /\ (x <=? of_int 0)%f64 = true).
  { intros f. destruct (getattr body f) as [x |].
    - destruct (x <=? of_int 0)%f64 eqn:E.
      + right. now exists x.
      + left. congruence.
    - left. discriminate. }
  destruct (Hone f_radius) as [H1 | [x H1]]; [ | right; now exists f_radius, x ].
  destruct (Hone f_base) as [H2 | [x H2]]; [ | right; now exists f_base, x ].
  destruct (Hone f_height) as [H3 | [x H3]]; [ | right; now exists f_height, x ].
  destruct (Hone f_length) as [H4 | [x H4]]; [ | right; now exists f_length, x ].
  destruct (Hone f_width) as [H5 | [x H5]]; [ | right; now exists f_width, x ].
  left. intros f. destruct f; assumption.
Qed.

Lemma Shapes_validate_inr (body shape : Shapes) :
  Shapes_validate body = inr shape -> shape = body /\ passes body.
Proof.
  intros H. destruct (passes_or_rejected body) as [Ha | [f [x [Hf Hx]]]].
  - rewrite (Shapes_validate_passes body Ha) in H. split; [ congruence | exact Ha ].
  - destruct (Shapes_validate_rejected body f x Hf Hx) as [errors [He _]].
    congruence.
Qed.

Lemma accepted_passes (body : Shapes) :
  accepted body = true <-> passes body.
Proof.
  unfold accepted, passes. rewrite forallb_forall. split.
  - intros H f x Hf. specialize (H f (In_model_fields f)).
    rewrite Hf in H. now apply negb_true_iff.
  - intros H f _. destruct (getattr body f) as [x |] eqn:Hf; [ | reflexivity ].
    apply negb_true_iff. exact (H f x Hf).
Qed.

Lemma valid_input_passes (r : route) (body : Shapes) :
  valid_input r body = true -> passes body.
Proof.
  unfold valid_input. intros H f x Hf.
  rewrite forallb_forall in H. specialize (H f (In_model_fields f)).
  rewrite Hf in H. now apply positive_finite_not_leb.
Qed.

Lemma valid_input_required (r : route) (body : Shapes) (f : field) :
  valid_input r body = true -> In f (required r) -> getattr body f <> None.
Proof.
  unfold valid_input. intros H Hin Hnone.
  rewrite forallb_forall in H. specialize (H f (In_model_fields f)).
  rewrite Hnone in H. apply negb_true_iff in H.
  unfold is_required in H.
  assert (Hex : existsb (field_eqb f) (required r) = true).
  { apply existsb_exists. exists f. split; [ assumption | now destruct f ]. }
  congruence.
Qed.

(** ** Running the engine and the handlers *)

Lemma circle_area_run (r : float) (self : Routes) :
  circle_area r self =
  (match float_pow_2 r with
   | inl e => inl e
   | inr sq => inr (math_pi * sq)%f64
   end, self).
Proof.
  unfold circle_area, bind, lift, ret.
  now destruct float_pow_2.
Qed.

Lemma calculate_circle_run (shape : Shapes) (r : float) (self : Routes) :
  radius shape = Some r ->
  calculate_circle shape self =
  (match float_pow_2 r with
   | inl e => inl (HTTPException 500 (str e))
   | inr sq => inr (circle_result r sq)
   end, self).
Proof.
  intros Hr. unfold calculate_circle. rewrite Hr.
  unfold try_except, bind. rewrite circle_area_run.
  now destruct float_pow_2.
Qed.

Lemma calculate_circle_none (shape : Shapes) (self : Routes) :
  radius shape = None ->
  calculate_circle shape self =
  (inl (HTTPException 400 "Radius is required"), self).
Proof.
  intros Hr. unfold calculate_circle. now rewrite Hr.
Qed.

Lemma calculate_rectangle_run (shape : Shapes) (l w : float) (self : Routes) :
  length shape = Some l -> width shape = Some w ->
  calculate_rectangle shape self = (inr (rectangle_result l w), self).
Proof.
  intros Hl Hw. unfold calculate_rectangle. now rewrite Hl, Hw.
Qed.

Lemma calculate_rectangle_none (shape : Shapes) (self : Routes) :
  length shape = None \/ width shape = None ->
  calculate_rectangle shape self =
  (inl (HTTPException 400 "Length and width are required"), self).
Proof.
  unfold calculate_rectangle.
  intros [H | H]; rewrite H; [ | destruct (length shape) ]; reflexivity.
Qed.

Lemma calculate_triangle_run (shape : Shapes) (b h : float) (self : Routes) :
  base shape = Some b -> height shape = Some h ->
  calculate_triangle shape self = (inr (triangle_result b h), self).
Proof.
  intros Hb Hh. unfold calculate_triangle. now rewrite Hb, Hh.
Qed.

Lemma calculate_triangle_none (shape : Shapes) (self : Routes) :
  base shape = None \/ height shape = None ->
  calculate_triangle shape self =
  (inl (HTTPException 400 "Base and height are required"), self).
Proof.
  unfold calculate_triangle.
  intros [H | H]; rewrite H; [ | destruct (base shape) ]; reflexivity.
Qed.

(** A handler never touches the instance. *)
Lemma api_routes_state (r : route) (shape : Shapes) (self : Routes) :
  snd (api_routes r shape self) = self.
Proof.
  destruct r; cbn [api_routes].
  - destruct (radius shape) as [x |] eqn:Hx.
    + now rewrite (calculate_circle_run shape x self Hx).
    + now rewrite (calculate_circle_none shape self Hx).
  - destruct (length shape) as [l |] eqn:Hl;
      [ destruct (width shape) as [w |] eqn:Hw | ].
    + now rewrite (calculate_rectangle_run shape l w self Hl Hw).
    + rewrite calculate_rectangle_none; auto.
    + rewrite calculate_rectangle_none; auto.
  - destruct (base shape) as [b |] eqn:Hb;
      [ destruct (height shape) as [h |] eqn:Hh | ].
    + now rewrite (calculate_triangle_run shape b h self Hb Hh).
    + rewrite calculate_triangle_none; auto.
    + rewrite calculate_triangle_none; auto.
Qed.

Lemma post_passes (r : route) (body : Shapes) (self : Routes) :
  passes body ->
  post r body self = (outcome_of (fst (api_routes r body self)), self).
Proof.
  intros H. unfold post. rewrite (Shapes_validate_passes body H).
  pose proof (api_routes_state r body self) as Hs.
  destruct (api_routes r body self) as [[e | d] self']; cbn in *; now subst.
Qed.

Lemma post_rejected (r : route) (body : Shapes) (self : Routes)
      (f : field) (x : float) :
  getattr body f = Some x -> (x <=? of_int 0)%f64 = true ->
  exists errors,
    post r body self = (Unprocessable errors, self)
    /\ In (rejection f x) errors.
Proof.
  intros Hf Hx.
  destruct (Shapes_validate_rejected body f x Hf Hx) as [errors [He Hin]].
  exists errors. unfold post. now rewrite He.
Qed.

Lemma api_routes_lacking (r : route) (shape : Shapes) (self : Routes) :
  lacks_required r shape = true ->
  api_routes r shape self = (inl (HTTPException 400 (required_detail r)), self).
Proof.
  destruct r; cbn [lacks_required required existsb getattr
                   api_routes required_detail]; intros H.
  - apply calculate_circle_none. now destruct (radius shape).
  - apply calculate_rectangle_none.
    destruct (length shape); [ destruct (width shape) | ]; auto; discriminate.
  - apply calculate_triangle_none.
    destruct (base shape); [ destruct (height shape) | ]; auto; discriminate.
Qed.

Lemma field_name_inj (f g : field) : field_name f = field_name g -> f = g.
Proof. destruct f, g; cbn; congruence. Qed.

Lemma post_errors_sound (r : route) (body : Shapes) (self : Routes)
      (errors : list ErrorDetails) (f : field) (x : float) :
  post r body self = (Unprocessable errors, self) ->
  In (rejection f x) errors ->
  getattr body f = Some x /\ (x <=? of_int 0)%f64 = true.
Proof.
  unfold post. rewrite Shapes_validate_errors.
  destruct (flat_map _ model_fields) as [| e es] eqn:Hfm.
  - now destruct (api_routes r _ self) as [[? | ?] ?].
  - intros H Hin. injection H as <-. rewrite <- Hfm in Hin.
    apply in_flat_map in Hin. destruct Hin as [g [_ Hg]].
    destruct (run_validator_cases g (getattr body g))
      as [Hrun | [y [Hy [Hle Hrun]]]]; rewrite Hrun in Hg; cbn in Hg.
    + contradiction.
    + destruct Hg as [Hg | []]. unfold rejection in Hg.
      injection Hg as Hname Hval. apply field_name_inj in Hname.
      subst. now rewrite Hy.
Qed.

(** The three routes on a body the validator accepts, whatever other
    attributes it carries. *)
Lemma post_circle_run (body : Shapes) (r : float) (self : Routes) :
  radius body = Some r ->
  accepted body = true ->
  post circle body self =
  (match float_pow_2 r with
   | inr sq => Returned (circle_result r sq)
   | inl e => Raised (HTTPException 500 (str e))
   end, self).
Proof.
  intros Hr Hacc. apply accepted_passes in Hacc.
  rewrite (post_passes circle body self Hacc).
  cbn [api_routes]. rewrite (calculate_circle_run body r self Hr).
  now destruct float_pow_2.
Qed.

Lemma post_rectangle_run (body : Shapes) (l w : float) (self : Routes) :
  length body = Some l -> width body = Some w ->
  accepted body = true ->
  post rectangle body self = (Returned (rectangle_result l w), self).
Proof.
  intros Hl Hw Hacc. apply accepted_passes in Hacc.
  rewrite (post_passes rectangle body self Hacc).
  cbn [api_routes].
  now rewrite (calculate_rectangle_run body l w self Hl Hw).
Qed.

Lemma post_triangle_run (body : Shapes) (b h : float) (self : Routes) :
  base body = Some b -> height body = Some h ->
  accepted body = true ->
  post triangle body self = (Returned (triangle_result b h), self).
Proof.
  intros Hb Hh Hacc. apply accepted_passes in Hacc.
  rewrite (post_passes triangle body self Hacc).
  cbn [api_routes].
  now rewrite (calculate_triangle_run body b h self Hb Hh).
Qed.

(** ** The claims *)

(** C1 (amended).  For every route and every attribute present in the
    body: if its value is at most zero (a negative number, a zero of
    either sign, minus infinity), the request is answered with the
    validation errors, among them the entry naming that attribute and
    its value, the handler does not run and no result is produced; if
    its value is greater than zero, plus infinity included, no
    validation error ever names it. *)
Theorem nonpositive_field_rejected
        (r : route) (body : Shapes) (f : field) (x : float) (self : Routes) :
  getattr body f = Some x ->
  ((x <=? of_int 0)%f64 = true ->
   exists errors,
     post r body self = (Unprocessable errors, self)
     /\ In (rejection f x) errors)
  /\ ((of_int 0 <? x)%f64 = true ->
      forall errors,
        post r body self = (Unprocessable errors, self) ->
        ~ In (rejection f x) errors).
Proof.
  intros Hf. split.
  - intros Hx. exact (post_rejected r body self f x Hf Hx).
  - intros Hpos errors Hpost Hin.
    destruct (post_errors_sound r body self errors f x Hpost Hin) as [_ Hle].
    rewrite (zero_ltb_not_leb x Hpos) in Hle. discriminate.
Qed.

(** C2 (amended).  For every radius greater than zero, the circle
    route returns area [math.pi * radius**2] and circumference
    [2 * math.pi * radius], in binary64, whenever Python's
    [radius ** 2] yields a value; when it raises (the square of a
    finite radius overflows), the route returns no area and answers
    with the 500 error that carries the message of the exception. *)
Theorem circle_formulas (r : float) (self : Routes) :
  (of_int 0 <? r)%f64 = true ->
  post circle (with_radius r) self =
  (match float_pow_2 r with
   | inr sq =>
       Returned [("area", (math_pi * sq)%f64);
                 ("circumference", (of_int 2 * math_pi * r)%f64)]
   | inl e => Raised (HTTPException 500 (str e))
   end, self).
Proof.
  intros Hr. apply post_circle_run; [ reflexivity | ].
  apply accepted_passes. intros f x; destruct f; intros E; inversion E; subst.
  now apply zero_ltb_not_leb.
Qed.

(** C3.  For every length and width greater than zero, the rectangle
    route returns area [length * width] and perimeter
    [2 * (length + width)], in binary64; length 3 and width 4 give area
    12 and perimeter 14. *)
Theorem rectangle_formulas :
  (forall (l w : float) (self : Routes),
      (of_int 0 <? l)%f64 = true -> (of_int 0 <? w)%f64 = true ->
      post rectangle (with_sides l w) self =
      (Returned [("area", (l * w)%f64);
                 ("perimeter", (of_int 2 * (l + w))%f64)], self))
  /\ (forall self : Routes,
         post rectangle (with_sides (of_int 3) (of_int 4)) self =
         (Returned [("area", of_int 12); ("perimeter", of_int 14)], self)).
Proof.
  split.
  - intros l w self Hl Hw. apply post_rectangle_run; try reflexivity.
    apply accepted_passes.
    intros f x; destruct f; intros E; inversion E; subst;
      now apply zero_ltb_not_leb.
  - intros self. reflexivity.
Qed.

(** C4 (amended).  For every base and height greater than zero, the
    triangle route returns area [(1/2) * height * base], the binary64
    product taken in that order: the height is halved first, then
    multiplied by the base; base 5 and height 10 give area 25.0.  The
    value can differ from 0.5 * base * height taken in the other order
    when halving the height rounds. *)
Theorem triangle_formulas :
  (forall (b h : float) (self : Routes),
      (of_int 0 <? b)%f64 = true -> (of_int 0 <? h)%f64 = true ->
      post triangle (with_base_height b h) self =
      (Returned [("area", (int_truediv 1 2 * h * b)%f64)], self))
  /\ (forall self : Routes,
         post triangle (with_base_height (of_int 5) (of_int 10)) self =
         (Returned [("area", of_int 25)], self)).
Proof.
  split.
  - intros b h self Hb Hh. apply post_triangle_run; try reflexivity.
    apply accepted_passes.
    intros f x; destruct f; intros E; inversion E; subst;
      now apply zero_ltb_not_leb.
  - intros self. reflexivity.
Qed.

(** C5 (amended).  For every circle request whose body lacks the
    radius and has no attribute that the validator rejects, the route
    fails with the 400 error whose detail is "Radius is required"; the
    handler raises it before it calls the engine, whatever the C
    library would compute, and no result is produced. *)
Theorem missing_radius_reported (body : Shapes) (self : Routes) :
  radius body = None ->
  accepted body = true ->
  post circle body self =
  (Raised (HTTPException 400 "Radius is required"), self).
Proof.
  intros Hr Hacc. apply accepted_passes in Hacc.
  rewrite (post_passes circle body self Hacc).
  cbn [api_routes].
  now rewrite (calculate_circle_none body self Hr).
Qed.

(** C6 (amended).  The validator runs before the presence test of the
    handler.  For every body that lacks a required attribute of the
    route: if some present attribute is at most zero, the answer is
    the list of validation errors, which names that attribute, and
    not the 400 error of the missing attribute; the 400 error with the
    detail of the route is the answer exactly when the validator
    accepts every present attribute. *)
Theorem validation_precedes_presence
        (r : route) (body : Shapes) (self : Routes) :
  lacks_required r body = true ->
  (forall f x,
      getattr body f = Some x -> (x <=? of_int 0)%f64 = true ->
      exists errors,
        post r body self = (Unprocessable errors, self)
        /\ In (rejection f x) errors)
  /\ (accepted body = true <->
      post r body self = (Raised (HTTPException 400 (required_detail r)), self)).
Proof.
  intros Hlack. split.
  - intros f x. apply post_rejected.
  - split.
    + intros Hacc. apply accepted_passes in Hacc.
      rewrite (post_passes r body self Hacc).
      now rewrite (api_routes_lacking r body self Hlack).
    + intros Hpost.
      destruct (passes_or_rejected body) as [Hp | [f [x [Hf Hx]]]].
      * now apply accepted_passes.
      * destruct (post_rejected r body self f x Hf Hx) as [errors [He _]].
        congruence.
Qed.

(** C7.  Whenever a route returns a result, its keys are exactly those
    of the route, in this order: area and circumference for the
    circle, area and perimeter for the rectangle, area for the
    triangle.  Every request ends in one of three ways: a result with
    all these keys, an exception, or the list of validation errors;
    there is no partial result. *)
Theorem result_fields_exact (r : route) (body : Shapes) (self : Routes) :
  (forall result self',
      post r body self = (Returned result, self') ->
      keys result = result_keys r)
  /\ ((exists result,
          post r body self = (Returned result, self)
          /\ keys result = result_keys r)
      \/ (exists e, post r body self = (Raised e, self))
      \/ (exists errors, post r body self = (Unprocessable errors, self))).
Proof.
  assert (Hcases :
            (exists result,
                post r body self = (Returned result, self)
                /\ keys result = result_keys r)
            \/ (exists e, post r body self = (Raised e, self))
            \/ (exists errors, post r body self = (Unprocessable errors, self))).
  { destruct (passes_or_rejected body) as [Hp | [f [x [Hf Hx]]]].
    - rewrite (post_passes r body self Hp).
      destruct r; cbn [api_routes].
      + destruct (radius body) as [x |] eqn:Hx.
        * rewrite (calculate_circle_run body x self Hx).
          destruct float_pow_2; cbn; eauto.
        * rewrite (calculate_circle_none body self Hx). cbn. eauto.
      + destruct (length body) as [l |] eqn:Hl;
          [ destruct (width body) as [w |] eqn:Hw | ].
        * rewrite (calculate_rectangle_run body l w self Hl Hw). cbn. eauto.
        * rewrite calculate_rectangle_none by auto. cbn. eauto.
        * rewrite calculate_rectangle_none by auto. cbn. eauto.
      + destruct (base body) as [b |] eqn:Hb;
          [ destruct (height body) as [h |] eqn:Hh | ].
        * rewrite (calculate_triangle_run body b h self Hb Hh). cbn. eauto.
        * rewrite calculate_triangle_none by auto. cbn. eauto.
        * rewrite calculate_triangle_none by auto. cbn. eauto.
    - destruct (post_rejected r body self f x Hf Hx) as [errors [He _]].
      eauto. }
  split; [ | exact Hcases ].
  intros result self' Hpost.
  destruct Hcases as [[d [Hd Hk]] | [[e He] | [errors He]]]; congruence.
Qed.

(** C9 (amended).  For every valid input (the required attributes
    present, every present attribute finite and greater than zero)
    the rectangle and triangle routes return a result, and so does
    the circle route unless Python's [radius ** 2] raises; in that one
    case, the overflow of the square, the handler takes its 500
    branch. *)
Theorem valid_input_outcome (r : route) (body : Shapes) (self : Routes) :
  valid_input r body = true ->
  (exists result,
      post r body self = (Returned result, self)
      /\ keys result = result_keys r)
  \/ (r = circle
      /\ exists x e,
          radius body = Some x
          /\ float_pow_2 x = inl e
          /\ post r body self = (Raised (HTTPException 500 (str e)), self)).
Proof.
  intros Hv. pose proof (valid_input_passes r body Hv) as Hp.
  rewrite (post_passes r body self Hp).
  destruct r; cbn [api_routes].
  - destruct (radius body) as [x |] eqn:Hx.
    + rewrite (calculate_circle_run body x self Hx).
      destruct float_pow_2 as [e | sq] eqn:Hpow; cbn.
      * right. split; [ reflexivity | ]. now exists x, e.
      * left. eauto.
    + now destruct (valid_input_required circle body f_radius Hv (or_introl eq_refl)).
  - destruct (length body) as [l |] eqn:Hl;
      [ destruct (width body) as [w |] eqn:Hw | ].
    + rewrite (calculate_rectangle_run body l w self Hl Hw). cbn. eauto.
    + now destruct (valid_input_required rectangle body f_width Hv
                                         (or_intror (or_introl eq_refl))).
    + now destruct (valid_input_required rectangle body f_length Hv
                                         (or_introl eq_refl)).
  - destruct (base body) as [b |] eqn:Hb;
      [ destruct (height body) as [h |] eqn:Hh | ].
    + rewrite (calculate_triangle_run body b h self Hb Hh). cbn. eauto.
    + now destruct (valid_input_required triangle body f_height Hv
                                         (or_intror (or_introl eq_refl))).
    + now destruct (valid_input_required triangle body f_base Hv
                                         (or_introl eq_refl)).
Qed.

(** C10.  The answer of a route depends only on the attributes the
    route requires: two valid inputs that agree on them (the radius
    for the circle, length and width for the rectangle, base and
    height for the triangle) get identical answers, whatever their
    other attributes are. *)
Theorem result_depends_on_required_fields
        (r : route) (b1 b2 : Shapes) (self : Routes) :
  valid_input r b1 = true ->
  valid_input r b2 = true ->
  (forall f, In f (required r) -> getattr b1 f = getattr b2 f) ->
  post r b1 self = post r b2 self.
Proof.
  intros H1 H2 Heq.
  rewrite (post_passes r b1 self (valid_input_passes r b1 H1)).
  rewrite (post_passes r b2 self (valid_input_passes r b2 H2)).
  f_equal. f_equal. f_equal.
  destruct r; cbn [api_routes required] in *.
  - pose proof (Heq f_radius (or_introl eq_refl)) as E. cbn in E.
    unfold calculate_circle. now rewrite E.
  - pose proof (Heq f_length (or_introl eq_refl)) as E1.
    pose proof (Heq f_width (or_intror (or_introl eq_refl))) as E2.
    cbn in E1, E2. unfold calculate_rectangle. now rewrite E1, E2.
  - pose proof (Heq f_base (or_introl eq_refl)) as E1.
    pose proof (Heq f_height (or_intror (or_introl eq_refl))) as E2.
    cbn in E1, E2. unfold calculate_triangle. now rewrite E1, E2.
Qed.

(** * Further properties of the engine and of the routes *)

(** ** Binary64 facts the engine's arithmetic rests on *)

Lemma mul_comm (x y : float) : (x * y)%f64 = (y * x)%f64.
Proof.
  destruct x as [sx | sx | | sx mx ex], y as [sy | sy | | sy my ey];
    unfold mul, SFmul; cbv beta iota;
    rewrite ?(xorb_comm sx sy); try reflexivity.
  now rewrite (Pos.mul_comm mx my), (Z.add_comm ex ey).
Qed.

Lemma add_comm (x y : float) : (x + y)%f64 = (y + x)%f64.
Proof.
  destruct x as [sx | sx | | sx mx ex], y as [sy | sy | | sy my ey];
    unfold add, SFadd; cbv beta iota zeta;
    try reflexivity; try (now destruct sx, sy).
  rewrite (Z.min_comm ey ex).
  now rewrite Z.add_comm.
Qed.

Lemma iter_pos_invariant {A : Type} (P : A -> Prop) (f : A -> A) :
  (forall a, P a -> P (f a)) ->
  forall (n : positive) (a : A), P a -> P (iter_pos f n a).
Proof.
  intros Hf. induction n as [n IH | n IH |]; intros a Ha; cbn [iter_pos]; auto.
Qed.

Lemma shr_1_nonneg (mrs : shr_record) :
  0 <= shr_m mrs -> 0 <= shr_m (shr_1 mrs).
Proof.
  destruct mrs as [m r s]. destruct m as [| p | p]; cbn [shr_1 shr_m].
  - lia.
  - destruct p; cbn [shr_m]; lia.
  - lia.
Qed.

Lemma shr_fexp_nonneg (m e : Z) (l : location) :
  0 <= m -> 0 <= shr_m (fst (shr_fexp prec emax m e l)).
Proof.
  intros Hm. unfold shr_fexp, shr.
  assert (H0 : 0 <= shr_m (shr_record_of_loc m l)).
  { destruct l as [| c]; [ | destruct c ]; exact Hm. }
  destruct (fexp prec emax (Zdigits2 m + e) - e) as [| n | n]; cbn [fst]; auto.
  now apply iter_pos_invariant; [ exact shr_1_nonneg | ].
Qed.

Lemma round_nearest_even_nonneg (m : Z) (l : location) :
  0 <= m -> 0 <= round_nearest_even m l.
Proof.
  intros Hm. destruct l as [| c]; [ | destruct c ]; cbn [round_nearest_even];
    try destruct (Z.even m); lia.
Qed.

(** Rounding a positive magnitude gives a zero, a finite number or an
    infinity of the sign it was given, never NaN. *)
Lemma binary_round_aux_nonneg (m : positive) (e : Z) (l : location) :
  (of_int 0 <=? binary_round_aux prec emax false (Zpos m) e l)%f64 = true.
Proof.
  unfold binary_round_aux.
  pose proof (shr_fexp_nonneg (Zpos m) e l (Pos2Z.is_nonneg m)) as H1.
  destruct (shr_fexp prec emax (Zpos m) e l) as [mrs' e'].
  cbn [fst] in H1.
  pose proof (shr_fexp_nonneg _ e' loc_Exact
                (round_nearest_even_nonneg _ (loc_of_shr_record mrs') H1)) as H2.
  destruct (shr_fexp prec emax (round_nearest_even (shr_m mrs') (loc_of_shr_record mrs'))
                     e' loc_Exact) as [mrs'' e''].
  cbn [fst] in H2.
  destruct (shr_m mrs'') as [| p | p].
  - reflexivity.
  - now destruct (e'' <=? emax - prec).
  - lia.
Qed.

Lemma positive_cases (x : float) :
  (of_int 0 <? x)%f64 = true ->
  x = inf \/ exists m e, x = S754_finite false m e.
Proof.
  destruct x as [s | s | | s m e]; try destruct s; cbv; try discriminate; eauto.
Qed.

Lemma mul_pos_pos (x y : float) :
  (of_int 0 <? x)%f64 = true -> (of_int 0 <? y)%f64 = true ->
  (of_int 0 <=? x * y)%f64 = true.
Proof.
  intros Hx Hy.
  destruct (positive_cases x Hx) as [-> | [mx [ex ->]]];
    destruct (positive_cases y Hy) as [-> | [my [ey ->]]];
    try reflexivity.
  unfold mul, SFmul. cbv beta iota. apply binary_round_aux_nonneg.
Qed.

Lemma nonneg_cases (x : float) :
  (of_int 0 <=? x)%f64 = true ->
  x = inf \/ (exists s, x = S754_zero s) \/ exists m e, x = S754_finite false m e.
Proof.
  destruct x as [s | s | | s m e]; try destruct s; cbv; try discriminate; eauto.
Qed.

Lemma mul_finite_pos_nonneg (x y : float) :
  positive_finite x = true -> (of_int 0 <=? y)%f64 = true ->
  (of_int 0 <=? x * y)%f64 = true.
Proof.
  unfold positive_finite. intros Hx Hy. apply andb_true_iff in Hx.
  destruct Hx as [Hfin Hx].
  destruct (positive_cases x Hx) as [-> | [mx [ex ->]]]; [ discriminate | ].
  destruct (nonneg_cases y Hy) as [-> | [[s ->] | [my [ey ->]]]];
    try reflexivity.
  unfold mul, SFmul. cbv beta iota. apply binary_round_aux_nonneg.
Qed.

Lemma add_pos_pos (x y : float) :
  (of_int 0 <? x)%f64 = true -> (of_int 0 <? y)%f64 = true ->
  (of_int 0 <=? x + y)%f64 = true.
Proof.
  intros Hx Hy.
  destruct (positive_cases x Hx) as [-> | [mx [ex ->]]];
    destruct (positive_cases y Hy) as [-> | [my [ey ->]]];
    try reflexivity.
  unfold add, SFadd. cbv beta iota zeta. cbn [cond_Zopp Z.add].
  unfold binary_normalize, binary_round.
  destruct (shl_align _ _ _) as [mz ez].
  apply binary_round_aux_nonneg.
Qed.

Lemma half_mul_exact (s : bool) (m : positive) (e : Z) :
  digits2_pos m = 53%positive -> -1074 < e -> e <= 971 ->
  (int_truediv 1 2 * S754_finite s m e)%f64 = S754_finite s m (e - 1).
Proof.
  intros Hd Hlo Hhi.
  change (int_truediv 1 2) with (S754_finite false 4503599627370496 (-53)).
  unfold mul, SFmul. cbn [xorb Pos.mul].
  unfold binary_round_aux, shr_fexp.
  cbn [Zdigits2 digits2_pos]. rewrite Hd. cbn [Pos.succ Pos.add].
  remember (-53 + e) as e0 eqn:He0.
  replace (fexp prec emax (105 + e0) - e0) with 52
    by (unfold fexp, emin, prec, emax; lia).
  cbn [shr shr_record_of_loc iter_pos shr_1 orb].
  cbn [round_nearest_even loc_of_shr_record shr_m Zdigits2]. rewrite Hd.
  replace (fexp prec emax (53 + (e0 + 52)) - (e0 + 52)) with 0
    by (unfold fexp, emin, prec, emax; lia).
  cbn [shr shr_record_of_loc shr_m].
  replace (e0 + 52 <=? emax - prec) with true
    by (symmetry; apply Z.leb_le; unfold prec, emax; lia).
  f_equal. lia.
Qed.

Lemma halves_exactly_finite (s : bool) (m : positive) (e : Z) :
  halves_exactly (S754_finite s m e) = true ->
  (int_truediv 1 2 * S754_finite s m e)%f64 = S754_finite s m (e - 1).
Proof.
  unfold halves_exactly. intros H.
  apply andb_true_iff in H. destruct H as [H He2].
  apply andb_true_iff in H. destruct H as [Hd He1].
  apply half_mul_exact.
  - now apply Pos.eqb_eq.
  - now apply Z.ltb_lt.
  - now apply Z.leb_le.
Qed.

Lemma half_mul_swap (h b : float) :
  halves_exactly h = true -> halves_exactly b = true ->
  (int_truediv 1 2 * h * b)%f64 = (int_truediv 1 2 * b * h)%f64.
Proof.
  intros Hh Hb.
  destruct h as [sh | sh | | sh mh eh], b as [sb | sb | | sb mb eb];
    try rewrite (halves_exactly_finite _ _ _ Hh);
    try rewrite (halves_exactly_finite _ _ _ Hb);
    try reflexivity;
    try (destruct sh; reflexivity);
    try (destruct sb; reflexivity);
    try (destruct sh, sb; reflexivity).
  unfold mul, SFmul.
  rewrite (xorb_comm sh sb), (Pos.mul_comm mh mb).
  now replace (eh - 1 + eb) with (eb - 1 + eh) by lia.
Qed.

Lemma ltb_leb_zero (x : float) :
  (of_int 0 <? x)%f64 = true -> (of_int 0 <=? x)%f64 = true.
Proof.
  destruct x as [s | s | | s m e]; try destruct s; cbv; congruence.
Qed.

Lemma isnan_inv (x : float) : isnan x = true -> x = nan.
Proof. now destruct x. Qed.

Lemma mul_nan_r (x : float) : (x * nan)%f64 = nan.
Proof. now destruct x. Qed.

Lemma add_nan_r (x : float) : (x + nan)%f64 = nan.
Proof. now destruct x. Qed.

Lemma valid_input_field (r : route) (body : Shapes) (f : field) (x : float) :
  valid_input r body = true -> getattr body f = Some x ->
  positive_finite x = true.
Proof.
  unfold valid_input. intros H Hf.
  rewrite forallb_forall in H. specialize (H f (In_model_fields f)).
  now rewrite Hf in H.
Qed.

Lemma positive_finite_ltb (x : float) :
  positive_finite x = true -> (of_int 0 <? x)%f64 = true.
Proof.
  unfold positive_finite. intros H. now apply andb_true_iff in H.
Qed.

Lemma fst_run_validator (f : field) (v : option float) :
  fst (run_validator f v) =
  match v with
  | Some x => if (x <=? of_int 0)%f64 then [rejection f x] else []
  | None => []
  end.
Proof.
  unfold run_validator, value_must_be_positive.
  destruct v as [x |]; [ | reflexivity ].
  now destruct (x <=? of_int 0)%f64.
Qed.

Lemma Shapes_validate_rejections (body : Shapes) :
  Shapes_validate body =
  match rejections body with
  | [] => inr body
  | errors => inl errors
  end.
Proof.
  rewrite Shapes_validate_errors. unfold rejections.
  rewrite (flat_map_ext _ _ (fun f => fst_run_validator f (getattr body f))).
  destruct (flat_map _ model_fields) as [| e es] eqn:Hfm; [ | reflexivity ].
  destruct (passes_or_rejected body) as [Hp | [f [x [Hf Hx]]]].
  - change (radius body) with (getattr body f_radius).
    change (base body) with (getattr body f_base).
    change (height body) with (getattr body f_height).
    change (length body) with (getattr body f_length).
    change (width body) with (getattr body f_width).
    rewrite !run_validator_accepts by (apply Hp). now destruct body.
  - exfalso.
    assert (Hin : In (rejection f x)
                     (flat_map (fun g => match getattr body g with
                                         | Some y => if (y <=? of_int 0)%f64
                                                     then [rejection g y] else []
                                         | None => []
                                         end) model_fields)).
    { apply in_flat_map. exists f. split; [ apply In_model_fields | ].
      rewrite Hf, Hx. now left. }
    now rewrite Hfm in Hin.
Qed.

Lemma accepted_rejections (body : Shapes) :
  accepted body = true <-> rejections body = [].
Proof.
  split.
  - intros H. apply accepted_passes in H.
    pose proof (Shapes_validate_passes body H) as Hv.
    rewrite Shapes_validate_rejections in Hv.
    now destruct (rejections body).
  - intros H. apply accepted_passes. intros f x Hf.
    destruct (x <=? of_int 0)%f64 eqn:Hx; [ exfalso | reflexivity ].
    assert (Hin : In (rejection f x) (rejections body)).
    { apply in_flat_map. exists f. split; [ apply In_model_fields | ].
      rewrite Hf, Hx. now left. }
    now rewrite H in Hin.
Qed.

Lemma float_pow_2_inl (x : float) (e : Exception) :
  float_pow_2 x = inl e ->
  isfinite x = true /\ (x =? of_int 0)%f64 = false /\ x <> of_int 1.
Proof.
  unfold float_pow_2. destruct x as [s | s | | s m ex]; cbn [isnan isinf isfinite];
    try discriminate.
  destruct (S754_finite s m ex =? of_int 0)%f64 eqn:Hz; [ discriminate | ].
  intros H. split; [ reflexivity | split; [ reflexivity | ] ].
  intros Hone.
  change (of_int 1) with (S754_finite false 4503599627370496 (-52)) in Hone.
  injection Hone as -> -> ->.
  change ((if (of_int 1 <? of_int 0)%f64 then neg (of_int 1) else of_int 1)
          =? of_int 1)%f64 with true in H.
  discriminate.
Qed.

Lemma float_pow_2_nonneg (x sq : float) :
  (forall y, positive_finite y = true ->
             (of_int 0 <=? fst (libm_pow y (of_int 2)))%f64 = true) ->
  positive_finite x = true ->
  float_pow_2 x = inr sq ->
  (of_int 0 <=? sq)%f64 = true.
Proof.
  intros Hlibm Hx. specialize (Hlibm x Hx). revert Hlibm.
  pose proof (positive_finite_ltb x Hx) as Hpos.
  destruct (positive_cases x Hpos) as [-> | [m [e ->]]]; [ discriminate | ].
  unfold float_pow_2. cbn [isnan isinf].
  change (S754_finite false m e =? of_int 0)%f64 with false.
  change (S754_finite false m e <? of_int 0)%f64 with false.
  cbv iota zeta.
  destruct (S754_finite false m e =? of_int 1)%f64.
  - intros _ H. now injection H as <-.
  - destruct (libm_pow (S754_finite false m e) (of_int 2)) as [ix errno].
    cbn [fst]. cbv beta iota.
    set (adjusted := if errno =? 0 then _ else _).
    intros Hix H.
    destruct (adjusted =? 0).
    + now injection H as <-.
    + now destruct (adjusted =? ERANGE).
Qed.

(** ** Properties beyond the claims *)

(** X1.  The rectangle does not depend on which side is called the
    length: swapping the two arguments of [rectangle_area] and of
    [rectangle_perimeter] gives the same binary64 value, and a request
    with the two sides exchanged gets the same answer. *)
Theorem rectangle_symmetric (l w : float) (self : Routes) :
  rectangle_area l w self = rectangle_area w l self
  /\ rectangle_perimeter l w self = rectangle_perimeter w l self
  /\ ((of_int 0 <? l)%f64 = true -> (of_int 0 <? w)%f64 = true ->
      post rectangle (with_sides l w) self = post rectangle (with_sides w l) self).
Proof.
  split; [ | split ].
  - unfold rectangle_area, ret. now rewrite mul_comm.
  - unfold rectangle_perimeter, ret. now rewrite add_comm.
  - intros Hl Hw.
    rewrite (post_rectangle_run (with_sides l w) l w self eq_refl eq_refl),
      (post_rectangle_run (with_sides w l) w l self eq_refl eq_refl).
    + unfold rectangle_result. now rewrite (mul_comm l w), (add_comm l w).
    + apply accepted_passes.
      intros f x; destruct f; intros E; inversion E; subst;
        now apply zero_ltb_not_leb.
    + apply accepted_passes.
      intros f x; destruct f; intros E; inversion E; subst;
        now apply zero_ltb_not_leb.
Qed.

(** X2.  [triangle_area] takes the height before the base.  Whenever
    both numbers are halved without rounding (each is a normal double
    of magnitude at least 2^-1021, a zero, an infinity or NaN), passing
    them in the other order gives the same area. *)
Theorem triangle_area_arguments_swap (h b : float) (self : Routes) :
  halves_exactly h = true -> halves_exactly b = true ->
  triangle_area h b self = triangle_area b h self.
Proof.
  intros Hh Hb. unfold triangle_area, ret.
  now rewrite (half_mul_swap h b Hh Hb).
Qed.

(** X3.  On a valid input the rectangle and triangle routes never
    return NaN or a negative number: every value of the result is at
    least zero (it may be zero by underflow and infinite by
    overflow). *)
Theorem valid_results_nonnegative
        (r : route) (body : Shapes) (self self' : Routes) (result : dict) :
  r <> circle ->
  valid_input r body = true ->
  post r body self = (Returned result, self') ->
  nonnegative_values result.
Proof.
  intros Hr Hv Hpost.
  pose proof (proj2 (accepted_passes body) (valid_input_passes r body Hv)) as Hacc.
  destruct r; [ congruence | | ].
  - destruct (length body) as [l |] eqn:Hl;
      [ | now destruct (valid_input_required rectangle body f_length Hv
                                            (or_introl eq_refl)) ].
    destruct (width body) as [w |] eqn:Hw;
      [ | now destruct (valid_input_required rectangle body f_width Hv
                                            (or_intror (or_introl eq_refl))) ].
    rewrite (post_rectangle_run body l w self Hl Hw Hacc) in Hpost.
    injection Hpost as <- _.
    pose proof (positive_finite_ltb l (valid_input_field _ _ f_length l Hv Hl)) as Pl.
    pose proof (positive_finite_ltb w (valid_input_field _ _ f_width w Hv Hw)) as Pw.
    repeat constructor; cbn [snd].
    + now apply mul_pos_pos.
    + apply mul_finite_pos_nonneg; [ reflexivity | now apply add_pos_pos ].
  - destruct (base body) as [b |] eqn:Hb;
      [ | now destruct (valid_input_required triangle body f_base Hv
                                            (or_introl eq_refl)) ].
    destruct (height body) as [h |] eqn:Hh;
      [ | now destruct (valid_input_required triangle body f_height Hv
                                            (or_intror (or_introl eq_refl))) ].
    rewrite (post_triangle_run body b h self Hb Hh Hacc) in Hpost.
    injection Hpost as <- _.
    pose proof (valid_input_field _ _ f_base b Hv Hb) as Pb.
    pose proof (positive_finite_ltb h (valid_input_field _ _ f_height h Hv Hh)) as Ph.
    repeat constructor; cbn [snd].
    rewrite mul_comm. apply mul_finite_pos_nonneg; [ exact Pb | ].
    apply mul_finite_pos_nonneg; [ reflexivity | now apply ltb_leb_zero ].
Qed.

(** X4.  If the C library's [pow] returns a number that is not negative
    for a finite base greater than zero and the exponent 2, then on a
    valid input the circle route never returns NaN or a negative
    number either. *)
Theorem circle_results_nonnegative
        (body : Shapes) (self self' : Routes) (result : dict) :
  (forall y, positive_finite y = true ->
             (of_int 0 <=? fst (libm_pow y (of_int 2)))%f64 = true) ->
  valid_input circle body = true ->
  post circle body self = (Returned result, self') ->
  nonnegative_values result.
Proof.
  intros Hlibm Hv Hpost.
  pose proof (proj2 (accepted_passes body) (valid_input_passes circle body Hv)) as Hacc.
  destruct (radius body) as [x |] eqn:Hx;
    [ | now destruct (valid_input_required circle body f_radius Hv
                                          (or_introl eq_refl)) ].
  rewrite (post_circle_run body x self Hx Hacc) in Hpost.
  pose proof (valid_input_field _ _ f_radius x Hv Hx) as Px.
  destruct (float_pow_2 x) as [e | sq] eqn:Hpow; [ discriminate | ].
  injection Hpost as <- _.
  repeat constructor; cbn [snd].
  - apply mul_finite_pos_nonneg; [ reflexivity | ].
    exact (float_pow_2_nonneg x sq Hlibm Px Hpow).
  - apply mul_pos_pos; [ reflexivity | now apply positive_finite_ltb ].
Qed.

Lemma In_rejections (body : Shapes) (f : field) (x : float) :
  In (rejection f x) (rejections body)
  <-> getattr body f = Some x /\ (x <=? of_int 0)%f64 = true.
Proof.
  unfold rejections. rewrite in_flat_map. split.
  - intros [g [_ Hg]].
    destruct (getattr body g) as [y |] eqn:Hy; [ | contradiction ].
    destruct (y <=? of_int 0)%f64 eqn:Hle; [ | contradiction ].
    destruct Hg as [Hg | []]. unfold rejection in Hg.
    injection Hg as Hname Hval. apply field_name_inj in Hname. now subst.
  - intros [Hf Hx]. exists f. split; [ apply In_model_fields | ].
    rewrite Hf, Hx. now left.
Qed.

Lemma post_cases (r : route) (body : Shapes) (self : Routes) :
  post r body self =
  (match rejections body with
   | [] => outcome_of (fst (api_routes r body self))
   | errors => Unprocessable errors
   end, self).
Proof.
  destruct (rejections body) as [| e es] eqn:Hrej.
  - apply post_passes. apply accepted_passes. now apply accepted_rejections.
  - unfold post. rewrite Shapes_validate_rejections, Hrej. reflexivity.
Qed.

Lemma lacks_required_false (r : route) (body : Shapes) :
  lacks_required r body = false ->
  forall f, In f (required r) -> exists x, getattr body f = Some x.
Proof.
  unfold lacks_required. intros H f Hin.
  destruct (getattr body f) as [x |] eqn:Hf; [ now exists x | ].
  assert (Hex : existsb (fun g => match getattr body g with
                                  | None => true | Some _ => false end)
                        (required r) = true).
  { apply existsb_exists. exists f. split; [ exact Hin | now rewrite Hf ]. }
  congruence.
Qed.

(** The answer of a handler on an instance, by cases. *)
Lemma api_routes_cases (r : route) (shape : Shapes) (self : Routes) :
  (lacks_required r shape = true
   /\ fst (api_routes r shape self) = inl (HTTPException 400 (required_detail r)))
  \/ (lacks_required r shape = false
      /\ ((exists result, fst (api_routes r shape self) = inr result)
          \/ (r = circle
              /\ exists x e,
                  radius shape = Some x /\ float_pow_2 x = inl e
                  /\ fst (api_routes r shape self)
                     = inl (HTTPException 500 (str e))))).
Proof.
  destruct (lacks_required r shape) eqn:Hlack.
  - left. split; [ reflexivity | ].
    now rewrite (api_routes_lacking r shape self Hlack).
  - right. split; [ reflexivity | ].
    pose proof (lacks_required_false r shape Hlack) as Hreq.
    destruct r; cbn [api_routes required] in *.
    + destruct (Hreq f_radius (or_introl eq_refl)) as [x Hx]. cbn in Hx.
      rewrite (calculate_circle_run shape x self Hx).
      destruct (float_pow_2 x) as [e | sq] eqn:Hpow; cbn [fst].
      * right. split; [ reflexivity | ]. now exists x, e.
      * left. eauto.
    + destruct (Hreq f_length (or_introl eq_refl)) as [l Hl].
      destruct (Hreq f_width (or_intror (or_introl eq_refl))) as [w Hw].
      cbn in Hl, Hw.
      rewrite (calculate_rectangle_run shape l w self Hl Hw). cbn [fst]. left. eauto.
    + destruct (Hreq f_base (or_introl eq_refl)) as [b Hb].
      destruct (Hreq f_height (or_intror (or_introl eq_refl))) as [h Hh].
      cbn in Hb, Hh.
      rewrite (calculate_triangle_run shape b h self Hb Hh). cbn [fst]. left. eauto.
Qed.

Lemma raised_cause (body : Shapes) (self self' : Routes) (detail : string) :
  post circle body self = (Raised (HTTPException 500 detail), self') ->
  exists x e0, radius body = Some x /\ float_pow_2 x = inl e0.
Proof.
  rewrite post_cases.
  destruct (rejections body) as [| d ds]; [ | discriminate ].
  intros H. apply (f_equal fst) in H. cbn [fst] in H.
  destruct (api_routes_cases circle body self)
    as [[Hlack Hr] | [Hlack [[result Hr] | [Hc [x [e0 [Hx [Hpow Hr]]]]]]]];
    rewrite Hr in H; cbn [outcome_of] in H; try discriminate.
  now exists x, e0.
Qed.

(** X5.  A refused request reports every offending attribute, not the
    first one only: when the validator rejects the body, the answer on
    every route is the same list of errors, which is not empty and has,
    in declaration order, an entry for an attribute and its value
    exactly when that attribute is present with a value at most zero. *)
Theorem validation_errors_listed (r : route) (body : Shapes) (self : Routes) :
  accepted body = false ->
  post r body self = (Unprocessable (rejections body), self)
  /\ rejections body <> []
  /\ (forall f x,
         In (rejection f x) (rejections body)
         <-> getattr body f = Some x /\ (x <=? of_int 0)%f64 = true).
Proof.
  intros Hacc.
  assert (Hne : rejections body <> []).
  { intros Hnil. apply accepted_rejections in Hnil. congruence. }
  split; [ | split; [ exact Hne | apply In_rejections ] ].
  rewrite post_cases. now destruct (rejections body).
Qed.

(** X6.  No builtin exception escapes a route.  An exception that
    leaves a route is either the 400 error with the detail of the
    route, raised because a required attribute is absent, or, on the
    circle route alone, the 500 error that carries the message of the
    exception [radius ** 2] raised. *)
Theorem raised_only_http
        (r : route) (body : Shapes) (self self' : Routes) (e : Exception) :
  post r body self = (Raised e, self') ->
  (lacks_required r body = true
   /\ e = HTTPException 400 (required_detail r))
  \/ (r = circle
      /\ exists x e0,
          radius body = Some x /\ float_pow_2 x = inl e0
          /\ e = HTTPException 500 (str e0)).
Proof.
  rewrite post_cases.
  destruct (rejections body) as [| d ds]; [ | discriminate ].
  intros H. injection H as H _.
  destruct (api_routes_cases r body self)
    as [[Hlack Hr] | [Hlack [[result Hr] | [Hc [x [e0 [Hx [Hpow Hr]]]]]]]];
    rewrite Hr in H; cbn [outcome_of] in H.
  - left. split; [ exact Hlack | congruence ].
  - discriminate.
  - right. split; [ exact Hc | ]. exists x, e0. repeat split; congruence.
Qed.

(** X7.  A route returns a result exactly when the validator rejects
    no attribute of the body, no required attribute of the route is
    absent and, on the circle route, [radius ** 2] yields a value. *)
Theorem returned_iff (r : route) (body : Shapes) (self : Routes) :
  (exists result, post r body self = (Returned result, self))
  <-> accepted body = true
      /\ lacks_required r body = false
      /\ (r = circle ->
          forall x, radius body = Some x -> exists sq, float_pow_2 x = inr sq).
Proof.
  rewrite post_cases. split.
  - intros [result H].
    destruct (rejections body) as [| d ds] eqn:Hrej; [ | discriminate ].
    injection H as H.
    split; [ now apply accepted_rejections | ].
    destruct (api_routes_cases r body self)
      as [[Hlack Hr] | [Hlack [[res Hr] | [Hc [x [e0 [Hx [Hpow Hr]]]]]]]];
      rewrite Hr in H; cbn [outcome_of] in H; try discriminate.
    split; [ exact Hlack | ].
    intros -> x Hx. cbn [api_routes] in Hr.
    rewrite (calculate_circle_run body x self Hx) in Hr.
    destruct (float_pow_2 x) as [e0 | sq]; [ discriminate | now exists sq ].
  - intros [Hacc [Hlack Hpow]].
    apply accepted_rejections in Hacc. rewrite Hacc.
    destruct (api_routes_cases r body self)
      as [[Hl Hr] | [_ [[res Hr] | [Hc [x [e0 [Hx [He0 Hr]]]]]]]].
    + congruence.
    + exists res. now rewrite Hr.
    + destruct (Hpow Hc x Hx) as [sq Hsq]. congruence.
Qed.

(** X8.  NaN is not refused and spreads to the whole result: when a
    dimension the route computes with is NaN, in a body the validator
    accepts, every value of the returned object is NaN. *)
Theorem nan_dimension_propagates :
  (forall (body : Shapes) (self : Routes),
      radius body = Some nan -> accepted body = true ->
      post circle body self =
      (Returned [("area", nan); ("circumference", nan)], self))
  /\ (forall (body : Shapes) (l w : float) (self : Routes),
         length body = Some l -> width body = Some w ->
         isnan l || isnan w = true -> accepted body = true ->
         post rectangle body self =
         (Returned [("area", nan); ("perimeter", nan)], self))
  /\ (forall (body : Shapes) (b h : float) (self : Routes),
         base body = Some b -> height body = Some h ->
         isnan b || isnan h = true -> accepted body = true ->
         post triangle body self = (Returned [("area", nan)], self)).
Proof.
  split; [ | split ].
  - intros body self Hr Hacc.
    now rewrite (post_circle_run body nan self Hr Hacc).
  - intros body l w self Hl Hw Hnan Hacc.
    rewrite (post_rectangle_run body l w self Hl Hw Hacc).
    unfold rectangle_result.
    apply orb_true_iff in Hnan. destruct Hnan as [H | H];
      apply isnan_inv in H; subst.
    + reflexivity.
    + now rewrite mul_nan_r, add_nan_r.
  - intros body b h self Hb Hh Hnan Hacc.
    rewrite (post_triangle_run body b h self Hb Hh Hacc).
    unfold triangle_result.
    apply orb_true_iff in Hnan. destruct Hnan as [H | H];
      apply isnan_inv in H; subst.
    + now rewrite mul_nan_r.
    + reflexivity.
Qed.

(** X9.  The invariant of the model: an instance of [Shapes] exists
    only for a body with no attribute at most zero, and it carries the
    attributes of the body unchanged, since the validator returns the
    value it was given. *)
Theorem instance_invariant (body shape : Shapes) :
  Shapes_validate body = inr shape ->
  shape = body
  /\ forall f x, getattr shape f = Some x -> (x <=? of_int 0)%f64 = false.
Proof.
  intros H. destruct (Shapes_validate_inr body shape H) as [-> Hp].
  split; [ reflexivity | exact Hp ].
Qed.

(** X10.  The except branch of [calculate_circle] needs a finite
    radius: the handler raises its own 500 error only with a radius
    that is finite, greater than zero and different from 1, whatever
    the C library does.  On a NaN or an infinite radius the handler
    does not raise; what the framework makes of the object it returns
    is not part of the statement. *)
Theorem circle_500_needs_finite_radius
        (body : Shapes) (self self' : Routes) (detail : string) :
  post circle body self = (Raised (HTTPException 500 detail), self') ->
  exists x,
    radius body = Some x
    /\ isfinite x = true
    /\ (of_int 0 <? x)%f64 = true
    /\ x <> of_int 1.
Proof.
  intros Hpost.
  assert (Hacc : rejections body = []).
  { rewrite post_cases in Hpost. now destruct (rejections body). }
  apply accepted_rejections, accepted_passes in Hacc.
  destruct (raised_cause body self self' detail Hpost) as [x [e0 [Hx Hpow]]].
  exists x. split; [ exact Hx | ].
  destruct (float_pow_2_inl x e0 Hpow) as [Hfin [_ Hone]].
  split; [ exact Hfin | split; [ | exact Hone ] ].
  pose proof (Hacc f_radius x Hx) as Hle.
  destruct x as [s | s | | s m e]; try discriminate; destruct s; try reflexivity;
    discriminate.
Qed.

(** ** Whole numbers: exact products and sums *)

Lemma digits2_pos_size (p : positive) : digits2_pos p = Pos.size p.
Proof. induction p; cbn; congruence. Qed.

Lemma shift_left_S (q : positive) (j : nat) :
  shift_left q (S j) = xO (shift_left q j).
Proof. reflexivity. Qed.

Lemma digits_shift_left (q : positive) (j : nat) :
  Zpos (digits2_pos (shift_left q j)) = Zpos (digits2_pos q) + Z.of_nat j.
Proof.
  induction j as [| j IH].
  - cbn. lia.
  - rewrite shift_left_S. cbn [digits2_pos].
    rewrite Pos2Z.inj_succ, IH. lia.
Qed.

Lemma iter_pos_shift {A : Type} (f : A -> A) (p : positive) (x : A) :
  iter_pos f p (f x) = f (iter_pos f p x).
Proof.
  revert x. induction p as [p IH | p IH |]; intros x; cbn [iter_pos].
  - now rewrite !IH.
  - now rewrite !IH.
  - reflexivity.
Qed.

Lemma iter_pos_nat {A : Type} (f : A -> A) (p : positive) (x : A) :
  iter_pos f p x = Nat.iter (Pos.to_nat p) f x.
Proof.
  revert x. induction p as [p IH | p IH |]; intros x; cbn [iter_pos].
  - rewrite Pos2Nat.inj_xI, Nat.iter_succ.
    replace (2 * Pos.to_nat p)%nat with (Pos.to_nat p + Pos.to_nat p)%nat by lia.
    rewrite Nat.iter_add, <- !IH. now rewrite !iter_pos_shift.
  - rewrite Pos2Nat.inj_xO.
    replace (2 * Pos.to_nat p)%nat with (Pos.to_nat p + Pos.to_nat p)%nat by lia.
    now rewrite Nat.iter_add, <- !IH.
  - reflexivity.
Qed.

Lemma shr_1_iter (q : positive) (j n : nat) :
  (n <= j)%nat ->
  Nat.iter n shr_1 (Build_shr_record (Zpos (shift_left q j)) false false)
  = Build_shr_record (Zpos (shift_left q (j - n))) false false.
Proof.
  induction n as [| n IH]; intros Hn.
  - now rewrite Nat.sub_0_r.
  - rewrite Nat.iter_succ, IH by lia.
    replace (j - n)%nat with (S (j - S n)) by lia.
    now rewrite shift_left_S.
Qed.

Lemma round_exact (s : bool) (q : positive) (j k : nat) (E : Z) :
  Zpos (digits2_pos q) + Z.of_nat k = 53 ->
  (k <= j)%nat ->
  -1074 <= E + Z.of_nat j - Z.of_nat k <= 971 ->
  binary_round_aux prec emax s (Zpos (shift_left q j)) E loc_Exact
  = S754_finite s (shift_left q k) (E + Z.of_nat j - Z.of_nat k).
Proof.
  intros Hd Hk HE.
  unfold binary_round_aux, shr_fexp. cbn [Zdigits2].
  rewrite digits_shift_left.
  replace (fexp prec emax (Zpos (digits2_pos q) + Z.of_nat j + E) - E)
    with (Z.of_nat (j - k)) by (unfold fexp, emin, prec, emax; lia).
  assert (Hshr :
    shr (shr_record_of_loc (Zpos (shift_left q j)) loc_Exact) E (Z.of_nat (j - k))
    = (Build_shr_record (Zpos (shift_left q k)) false false,
       E + Z.of_nat j - Z.of_nat k)).
  { destruct (j - k)%nat as [| n] eqn:Hn.
    - cbn [Z.of_nat shr shr_record_of_loc].
      replace j with k by lia. f_equal. lia.
    - cbn [Z.of_nat shr shr_record_of_loc].
      rewrite iter_pos_nat, SuccNat2Pos.id_succ, shr_1_iter by lia.
      f_equal; [ f_equal; f_equal; f_equal; lia | lia ]. }
  rewrite Hshr.
  cbn [shr_m loc_of_shr_record round_nearest_even Zdigits2].
  rewrite digits_shift_left.
  replace (fexp prec emax (Zpos (digits2_pos q) + Z.of_nat k
                           + (E + Z.of_nat j - Z.of_nat k))
           - (E + Z.of_nat j - Z.of_nat k))
    with 0 by (unfold fexp, emin, prec, emax; lia).
  cbn [shr shr_record_of_loc shr_m].
  replace (E + Z.of_nat j - Z.of_nat k <=? emax - prec) with true
    by (symmetry; apply Z.leb_le; unfold prec, emax; lia).
  reflexivity.
Qed.

Lemma slack_spec (q : positive) :
  Zpos q < 2 ^ 53 ->
  Zpos (digits2_pos q) + Z.of_nat (slack q) = 53.
Proof.
  intros Hq. unfold slack.
  assert (Zpos (digits2_pos q) <= 53).
  { rewrite digits2_pos_size.
    pose proof (Pos.size_le q) as Hle.
    assert (H2 : 2 ^ Zpos (Pos.size q) <= 2 * Zpos q).
    { change 2 with (Zpos 2) at 1. rewrite <- Pos2Z.inj_pow.
      change (2 * Zpos q) with (Zpos (q~0)). now apply Pos2Z.pos_le_pos. }
    destruct (Z.le_gt_cases (Zpos (Pos.size q)) 53) as [|Hgt]; [ assumption | ].
    assert (2 ^ 54 <= 2 ^ Zpos (Pos.size q)) by (apply Z.pow_le_mono_r; lia).
    change (2 ^ 54) with (2 * 2 ^ 53) in *. lia. }
  lia.
Qed.

Lemma Pos_iter_shift_left (q p : positive) :
  Pos.iter xO q p = shift_left q (Pos.to_nat p).
Proof. unfold shift_left. now rewrite Pos2Nat.inj_iter. Qed.

Lemma of_int_canonical (q : positive) :
  Zpos q < 2 ^ 53 ->
  of_int (Zpos q) = S754_finite false (shift_left q (slack q)) (- Z.of_nat (slack q)).
Proof.
  intros Hq. pose proof (slack_spec q Hq) as Hs.
  unfold of_int, binary_normalize, binary_round, shl_align.
  replace (fexp prec emax (Zpos (digits2_pos q) + 0))
    with (- Z.of_nat (slack q)) by (unfold fexp, emin, prec, emax; lia).
  rewrite Z.sub_0_r.
  destruct (slack q) as [| n] eqn:Hn.
  - cbn [Z.of_nat Z.opp]. cbv beta iota zeta.
    change (Zpos q) with (Zpos (shift_left q 0)).
    rewrite (round_exact false q 0 0 0); [ reflexivity | exact Hs | lia | cbn; lia ].
  - cbn [Z.of_nat Z.opp]. cbv beta iota zeta.
    rewrite Pos_iter_shift_left, SuccNat2Pos.id_succ.
    change (Z.neg (Pos.of_succ_nat n)) with (- Z.of_nat (S n)).
    rewrite (round_exact false q (S n) (S n)); [ | exact Hs | lia | lia ].
    f_equal. lia.
Qed.

Lemma shift_left_mul (a b : positive) (i j : nat) :
  (shift_left a i * shift_left b j)%positive = shift_left (a * b) (i + j).
Proof.
  induction i as [| i IH].
  - cbn [Nat.add]. change (shift_left a 0) with a.
    induction j as [| j IHj]; [ reflexivity | ].
    now rewrite !shift_left_S, Pos.mul_xO_r, IHj.
  - cbn [Nat.add]. rewrite !shift_left_S. cbn [Pos.mul]. now rewrite IH.
Qed.

Lemma shift_left_add (a b : positive) (j : nat) :
  (shift_left a j + shift_left b j)%positive = shift_left (a + b) j.
Proof.
  induction j as [| j IH]; [ reflexivity | ].
  now rewrite !shift_left_S, <- Pos.add_xO, IH.
Qed.

Lemma shift_left_shift (q : positive) (i j : nat) :
  shift_left (shift_left q i) j = shift_left q (i + j).
Proof.
  unfold shift_left. now rewrite Nat.add_comm, Nat.iter_add.
Qed.

Lemma digits_bounds (p : positive) :
  2 ^ (Zpos (digits2_pos p) - 1) <= Zpos p < 2 ^ Zpos (digits2_pos p).
Proof.
  rewrite digits2_pos_size. split.
  - pose proof (Pos.size_le p) as Hle.
    assert (H2 : 2 ^ Zpos (Pos.size p) <= 2 * Zpos p).
    { change 2 with (Zpos 2) at 1. rewrite <- Pos2Z.inj_pow.
      change (2 * Zpos p) with (Zpos (p~0)). now apply Pos2Z.pos_le_pos. }
    replace (Zpos (Pos.size p)) with (Z.succ (Zpos (Pos.size p) - 1)) in H2 by lia.
    rewrite Z.pow_succ_r in H2 by lia. lia.
  - pose proof (Pos.size_gt p) as Hgt.
    change 2 with (Zpos 2). rewrite <- Pos2Z.inj_pow. now apply Pos2Z.pos_lt_pos.
Qed.

Lemma digits_mul_lower (a b : positive) :
  Zpos (digits2_pos a) + Zpos (digits2_pos b)
  <= Zpos (digits2_pos (a * b)) + 1.
Proof.
  pose proof (digits_bounds a) as [Ha _].
  pose proof (digits_bounds b) as [Hb _].
  pose proof (digits_bounds (a * b)) as [_ Hab].
  rewrite Pos2Z.inj_mul in Hab.
  assert (Hlow : 2 ^ (Zpos (digits2_pos a) - 1 + (Zpos (digits2_pos b) - 1))
                 <= Zpos a * Zpos b).
  { rewrite Z.pow_add_r by lia. apply Z.mul_le_mono_nonneg; lia. }
  assert (Hlt : Zpos (digits2_pos a) - 1 + (Zpos (digits2_pos b) - 1)
                < Zpos (digits2_pos (a * b))).
  { apply (Z.pow_lt_mono_r_iff 2); lia. }
  lia.
Qed.

Lemma digits_mono (a c : positive) :
  Zpos a <= Zpos c -> Zpos (digits2_pos a) <= Zpos (digits2_pos c).
Proof.
  intros Hac.
  pose proof (digits_bounds a) as [Ha _].
  pose proof (digits_bounds c) as [_ Hc].
  assert (Hlt : Zpos (digits2_pos a) - 1 < Zpos (digits2_pos c)).
  { apply (Z.pow_lt_mono_r_iff 2); lia. }
  lia.
Qed.

Lemma mul_of_int (a b : positive) :
  Zpos a * Zpos b < 2 ^ 53 ->
  (of_int (Zpos a) * of_int (Zpos b))%f64 = of_int (Zpos (a * b)).
Proof.
  intros Hab.
  assert (Ha : Zpos a < 2 ^ 53) by nia.
  assert (Hb : Zpos b < 2 ^ 53) by nia.
  assert (Hab' : Zpos (a * b) < 2 ^ 53) by now rewrite Pos2Z.inj_mul.
  rewrite (of_int_canonical a Ha), (of_int_canonical b Hb),
    (of_int_canonical (a * b) Hab').
  pose proof (slack_spec a Ha) as Sa.
  pose proof (slack_spec b Hb) as Sb.
  pose proof (slack_spec (a * b) Hab') as Sab.
  pose proof (digits_mul_lower a b) as Hd.
  unfold mul, SFmul. cbn [xorb]. rewrite shift_left_mul.
  rewrite (round_exact false (a * b) (slack a + slack b) (slack (a * b)));
    [ f_equal; lia | exact Sab | lia | lia ].
Qed.

Lemma shl_align_fst (mx : positive) (ex ex' : Z) :
  ex' <= ex ->
  fst (shl_align mx ex ex') = shift_left mx (Z.to_nat (ex - ex')).
Proof.
  intros Hle. unfold shl_align.
  destruct (ex' - ex) as [| d | d] eqn:Hd.
  - replace (ex - ex') with 0 by lia. reflexivity.
  - lia.
  - cbn [fst]. rewrite Pos_iter_shift_left. f_equal.
    replace (ex - ex') with (Zpos d) by lia. reflexivity.
Qed.

Lemma add_of_int (a b : positive) :
  Zpos a + Zpos b < 2 ^ 53 ->
  (of_int (Zpos a) + of_int (Zpos b))%f64 = of_int (Zpos (a + b)).
Proof.
  intros Hab.
  assert (Ha : Zpos a < 2 ^ 53) by lia.
  assert (Hb : Zpos b < 2 ^ 53) by lia.
  assert (Hab' : Zpos (a + b) < 2 ^ 53) by now rewrite Pos2Z.inj_add.
  rewrite (of_int_canonical a Ha), (of_int_canonical b Hb),
    (of_int_canonical (a + b) Hab').
  pose proof (slack_spec a Ha) as Sa.
  pose proof (slack_spec b Hb) as Sb.
  pose proof (slack_spec (a + b) Hab') as Sab.
  assert (Da : Zpos (digits2_pos a) <= Zpos (digits2_pos (a + b)))
    by (apply digits_mono; lia).
  assert (Db : Zpos (digits2_pos b) <= Zpos (digits2_pos (a + b)))
    by (apply digits_mono; lia).
  unfold add, SFadd. cbv zeta. cbn [cond_Zopp].
  set (J := Nat.max (slack a) (slack b)).
  replace (Z.min (- Z.of_nat (slack a)) (- Z.of_nat (slack b)))
    with (- Z.of_nat J) by (subst J; lia).
  rewrite !shl_align_fst by (subst J; lia).
  rewrite !shift_left_shift.
  replace (slack a + Z.to_nat (- Z.of_nat (slack a) - - Z.of_nat J))%nat
    with J by (subst J; lia).
  replace (slack b + Z.to_nat (- Z.of_nat (slack b) - - Z.of_nat J))%nat
    with J by (subst J; lia).
  cbn [Z.add]. rewrite shift_left_add.
  unfold binary_normalize, binary_round, shl_align.
  rewrite digits_shift_left.
  replace (fexp prec emax (Zpos (digits2_pos (a + b)) + Z.of_nat J + - Z.of_nat J))
    with (- Z.of_nat (slack (a + b)))
    by (unfold fexp, emin, prec, emax; lia).
  destruct (- Z.of_nat (slack (a + b)) - - Z.of_nat J) as [| d | d] eqn:Hd;
    [ | | subst J; lia ].
  - rewrite (round_exact false (a + b) J (slack (a + b)));
      [ f_equal; lia | exact Sab | subst J; lia | subst J; lia ].
  - rewrite (round_exact false (a + b) J (slack (a + b)));
      [ f_equal; lia | exact Sab | subst J; lia | subst J; lia ].
Qed.

Lemma of_int_positive (a : positive) :
  Zpos a < 2 ^ 53 -> (of_int 0 <? of_int (Zpos a))%f64 = true.
Proof.
  intros Ha. now rewrite (of_int_canonical a Ha).
Qed.

Lemma half_of_int (q : positive) :
  Zpos q < 2 ^ 53 ->
  (int_truediv 1 2 * of_int (Zpos q))%f64
  = S754_finite false (shift_left q (slack q)) (- Z.of_nat (slack q) - 1).
Proof.
  intros Hq. pose proof (slack_spec q Hq) as Sq.
  rewrite (of_int_canonical q Hq). apply half_mul_exact; [ | lia | lia ].
  pose proof (digits_shift_left q (slack q)) as Hd.
  rewrite Sq in Hd. now injection Hd.
Qed.

Lemma half_mul_of_int (h b : positive) :
  Zpos h * Zpos b < 2 ^ 53 ->
  (int_truediv 1 2 * of_int (Zpos h) * of_int (Zpos b))%f64
  = (int_truediv 1 2 * of_int (Zpos (h * b)))%f64.
Proof.
  intros Hhb.
  assert (Hh : Zpos h < 2 ^ 53) by nia.
  assert (Hb : Zpos b < 2 ^ 53) by nia.
  assert (Hhb' : Zpos (h * b) < 2 ^ 53) by now rewrite Pos2Z.inj_mul.
  rewrite (half_of_int h Hh), (half_of_int (h * b) Hhb'),
    (of_int_canonical b Hb).
  pose proof (slack_spec h Hh) as Sh.
  pose proof (slack_spec b Hb) as Sb.
  pose proof (slack_spec (h * b) Hhb') as Shb.
  pose proof (digits_mul_lower h b) as Hd.
  unfold mul, SFmul. cbn [xorb]. rewrite shift_left_mul.
  rewrite (round_exact false (h * b) (slack h + slack b) (slack (h * b)));
    [ f_equal; lia | exact Shb | lia | lia ].
Qed.

Lemma half_of_int_even (c : positive) :
  Zpos (c~0) < 2 ^ 53 ->
  (int_truediv 1 2 * of_int (Zpos (c~0)))%f64 = of_int (Zpos c).
Proof.
  intros Hc2.
  assert (Hc : Zpos c < 2 ^ 53) by lia.
  rewrite (half_of_int (c~0) Hc2), (of_int_canonical c Hc).
  pose proof (slack_spec (c~0) Hc2) as S2. pose proof (slack_spec c Hc) as S1.
  cbn [digits2_pos] in S2. rewrite Pos2Z.inj_succ in S2.
  assert (Hs : slack c = S (slack (c~0))) by lia.
  rewrite Hs.
  f_equal; [ | lia ].
  unfold shift_left. now rewrite Nat.iter_succ_r.
Qed.

Lemma accepted_with_sides (l w : float) :
  (of_int 0 <? l)%f64 = true -> (of_int 0 <? w)%f64 = true ->
  accepted (with_sides l w) = true.
Proof.
  intros Hl Hw. apply accepted_passes.
  intros f x; destruct f; intros E; inversion E; subst;
    now apply zero_ltb_not_leb.
Qed.

Lemma accepted_with_base_height (b h : float) :
  (of_int 0 <? b)%f64 = true -> (of_int 0 <? h)%f64 = true ->
  accepted (with_base_height b h) = true.
Proof.
  intros Hb Hh. apply accepted_passes.
  intros f x; destruct f; intros E; inversion E; subst;
    now apply zero_ltb_not_leb.
Qed.

(** X11.  On an infinite dimension a handler raises nothing and
    returns an object whose values are infinite: an infinite radius, an
    infinite side of a rectangle whose other side is greater than zero,
    an infinite height of a triangle whose base is greater than zero.
    On two inputs greater than zero the triangle handler can
    nevertheless return NaN: an infinite base with the smallest
    positive height, whose half rounds to zero.  The statement is about
    the object the handler returns, not about its encoding by the
    framework. *)
Theorem infinite_dimension_propagates :
  (forall (body : Shapes) (self : Routes),
      radius body = Some inf -> accepted body = true ->
      post circle body self =
      (Returned [("area", inf); ("circumference", inf)], self))
  /\ (forall (body : Shapes) (l w : float) (self : Routes),
         length body = Some l -> width body = Some w ->
         (l = inf /\ (of_int 0 <? w)%f64 = true)
         \/ (w = inf /\ (of_int 0 <? l)%f64 = true) ->
         accepted body = true ->
         post rectangle body self =
         (Returned [("area", inf); ("perimeter", inf)], self))
  /\ (forall (body : Shapes) (b : float) (self : Routes),
         base body = Some b -> height body = Some inf ->
         (of_int 0 <? b)%f64 = true -> accepted body = true ->
         post triangle body self = (Returned [("area", inf)], self))
  /\ (forall self : Routes,
         post triangle (with_base_height inf min_subnormal) self =
         (Returned [("area", nan)], self)).
Proof.
  split; [ | split; [ | split ] ].
  - intros body self Hr Hacc.
    now rewrite (post_circle_run body inf self Hr Hacc).
  - intros body l w self Hl Hw Hinf Hacc.
    rewrite (post_rectangle_run body l w self Hl Hw Hacc).
    unfold rectangle_result.
    destruct Hinf as [[-> Hpos] | [-> Hpos]];
      destruct (positive_cases _ Hpos) as [-> | [m [e ->]]]; reflexivity.
  - intros body b self Hb Hh Hpos Hacc.
    rewrite (post_triangle_run body b inf self Hb Hh Hacc).
    unfold triangle_result.
    destruct (positive_cases _ Hpos) as [-> | [m [e ->]]]; reflexivity.
  - intros self. reflexivity.
Qed.

(** X12.  Whole numbers are computed exactly: for integer sides greater
    than zero whose product and doubled sum stay below 2^53, the
    rectangle route returns the integer [a * b] as area and the integer
    [2 * (a + b)] as perimeter, with no rounding. *)
Theorem rectangle_whole_numbers (a b : Z) (self : Routes) :
  0 < a -> 0 < b -> a * b < 2 ^ 53 -> 2 * (a + b) < 2 ^ 53 ->
  post rectangle (with_sides (of_int a) (of_int b)) self =
  (Returned [("area", of_int (a * b));
             ("perimeter", of_int (2 * (a + b)))], self).
Proof.
  intros Ha Hb Hab Hsum.
  destruct a as [| a | a]; try lia. destruct b as [| b | b]; try lia.
  assert (Ha' : Zpos a < 2 ^ 53) by lia.
  assert (Hb' : Zpos b < 2 ^ 53) by lia.
  rewrite (post_rectangle_run (with_sides (of_int (Zpos a)) (of_int (Zpos b)))
             (of_int (Zpos a)) (of_int (Zpos b)) self eq_refl eq_refl)
    by (apply accepted_with_sides; now apply of_int_positive).
  unfold rectangle_result.
  rewrite (mul_of_int a b Hab).
  rewrite (add_of_int a b) by lia.
  rewrite (mul_of_int 2 (a + b)) by (rewrite Pos2Z.inj_add; lia).
  reflexivity.
Qed.

(** X13.  For an integer base and height greater than zero whose
    product stays below 2^53, the triangle route returns exactly half
    the product; when the product is even, [2 * c], the area is the
    integer [c]. *)
Theorem triangle_whole_numbers (b h : Z) (self : Routes) :
  0 < b -> 0 < h -> b * h < 2 ^ 53 ->
  post triangle (with_base_height (of_int b) (of_int h)) self =
  (Returned [("area", (int_truediv 1 2 * of_int (b * h))%f64)], self)
  /\ (forall c : Z,
         b * h = 2 * c ->
         post triangle (with_base_height (of_int b) (of_int h)) self =
         (Returned [("area", of_int c)], self)).
Proof.
  intros Hb Hh Hbh.
  destruct b as [| b | b]; try lia. destruct h as [| h | h]; try lia.
  assert (Hb' : Zpos b < 2 ^ 53) by nia.
  assert (Hh' : Zpos h < 2 ^ 53) by nia.
  assert (Hpost :
    post triangle (with_base_height (of_int (Zpos b)) (of_int (Zpos h))) self =
    (Returned [("area", (int_truediv 1 2 * of_int (Zpos b * Zpos h))%f64)], self)).
  { rewrite (post_triangle_run
               (with_base_height (of_int (Zpos b)) (of_int (Zpos h)))
               (of_int (Zpos b)) (of_int (Zpos h)) self eq_refl eq_refl)
      by (apply accepted_with_base_height; now apply of_int_positive).
    unfold triangle_result.
    rewrite (half_mul_of_int h b) by lia.
    now rewrite (Pos.mul_comm h b). }
  split; [ exact Hpost | ].
  intros c Hc. rewrite Hpost.
  destruct c as [| c | c]; try lia.
  rewrite Hc. change (2 * Zpos c) with (Zpos (c~0)).
  rewrite half_of_int_even; [ reflexivity | ].
  change (Zpos (c~0)) with (2 * Zpos c). lia.
Qed.

Lemma binary_round_aux_opp (s : bool) (m e : Z) (l : location) :
  neg (binary_round_aux prec emax s m e l)
  = binary_round_aux prec emax (negb s) m e l.
Proof.
  unfold binary_round_aux.
  destruct (shr_fexp prec emax m e l) as [mrs' e'].
  destruct (shr_fexp prec emax _ e' loc_Exact) as [mrs'' e''].
  destruct (shr_m mrs'') as [| p | p]; try reflexivity.
  now destruct (e'' <=? emax - prec).
Qed.

Lemma mul_neg_r (x y : float) : (x * neg y)%f64 = neg (x * y)%f64.
Proof.
  destruct x as [sx | sx | | sx mx ex], y as [sy | sy | | sy my ey];
    try reflexivity;
    try (now destruct sx, sy).
  unfold mul, SFmul, neg. cbn [SFopp]. fold neg.
  rewrite binary_round_aux_opp. now destruct sx, sy.
Qed.

Lemma float_pow_2_neg (x : float) : float_pow_2 (neg x) = float_pow_2 x.
Proof.
  destruct x as [s | s | | s m e]; try reflexivity.
  now destruct s.
Qed.

(** X14.  The engine checks nothing itself.  Called on the opposite of
    a radius, [circle_area] gives the same outcome as on the radius,
    whatever the C library, and [circle_circumference] gives the
    opposite value. *)
Theorem circle_engine_sign (r : float) (self : Routes) :
  circle_area (neg r) self = circle_area r self
  /\ circle_circumference (neg r) self
     = (inr (neg (of_int 2 * math_pi * r)%f64), self).
Proof.
  split.
  - rewrite !circle_area_run. now rewrite float_pow_2_neg.
  - unfold circle_circumference, ret. now rewrite mul_neg_r.
Qed.

End Platform.

(** ** The square under a correctly rounding C library *)

Lemma eqb_one_inv (s : bool) (m : positive) (e : Z) :
  (S754_finite s m e =? of_int 1)%f64 = true ->
  S754_finite s m e = of_int 1.
Proof.
  unfold eqb, SFeqb. change (of_int 1) with (S754_finite false 4503599627370496 (-52)).
  cbn [SFcompare]. destruct s; [ discriminate | ].
  destruct (Z.compare e (-52)) eqn:He; try discriminate.
  destruct (Pos.compare_cont Eq m 4503599627370496) eqn:Hm; try discriminate.
  intros _. apply Z.compare_eq in He. apply Pos.compare_eq in Hm. now subst.
Qed.

Lemma float_pow_2_rounded (se : Z -> string) (x : float) :
  float_pow_2 pow_rounded se x =
  if isfinite x && isinf (x * x)%f64
  then inl (OverflowError (Errno ERANGE (se ERANGE)))
  else inr (x * x)%f64.
Proof.
  destruct x as [s | s | | s m e].
  - now destruct s.
  - now destruct s.
  - reflexivity.
  - unfold float_pow_2. cbn [isnan isinf isfinite andb].
    replace (S754_finite s m e =? of_int 0)%f64 with false by now destruct s.
    set (a := if (S754_finite s m e <? of_int 0)%f64
              then neg (S754_finite s m e) else S754_finite s m e).
    assert (Ha : a = S754_finite false m e).
    { subst a. now destruct s. }
    assert (Hsq : (a * a)%f64 = (S754_finite s m e * S754_finite s m e)%f64).
    { rewrite Ha. unfold mul. cbn [SFmul]. now destruct s. }
    destruct (a =? of_int 1)%f64 eqn:Hone.
    + rewrite Ha in Hone. apply eqb_one_inv in Hone.
      injection Hone as -> ->. now destruct s.
    + unfold pow_rounded.
      change (of_int 2 =? of_int 2)%f64 with true. cbv iota zeta.
      rewrite Hsq.
      destruct (S754_finite s m e * S754_finite s m e)%f64 as [s' | s' | | s' m' e'];
        try reflexivity; now destruct s'.
Qed.

(** With that library the circle route is a closed formula: the 500
    error exactly when the radius is finite and its rounded square is
    infinite, and otherwise pi times the rounded square. *)
Lemma circle_rounded (body : Shapes) (r : float) (self : Routes) :
  radius body = Some r ->
  accepted body = true ->
  post pow_rounded strerror_glibc circle body self =
  (if isfinite r && isinf (r * r)%f64
   then Raised (HTTPException 500 "(34, 'Numerical result out of range')")
   else Returned [("area", (math_pi * (r * r))%f64);
                  ("circumference", (of_int 2 * math_pi * r)%f64)],
   self).
Proof.
  intros Hr Hacc.
  rewrite (post_circle_run pow_rounded strerror_glibc body r self Hr Hacc).
  rewrite float_pow_2_rounded.
  now destruct (isfinite r && isinf (r * r)%f64).
Qed.

(** ** Instances and counterexamples *)

(** C1, at a radius of -1. *)
Lemma nonpositive_field_rejected_witness :
  exists errors,
    post pow_rounded strerror_glibc circle (with_radius minus_one) self0
    = (Unprocessable errors, self0)
    /\ In (rejection f_radius minus_one) errors.
Proof.
  apply (proj1 (nonpositive_field_rejected pow_rounded strerror_glibc circle
                  (with_radius minus_one) f_radius minus_one self0 eq_refl)).
  reflexivity.
Defined.

(** C1 as stated fails: a circle request of radius 2 that also carries
    an infinite base, or a NaN base, has an attribute that is infinite,
    or NaN, and is answered with the complete result; so is a rectangle
    request with infinite sides. *)
Lemma infinite_and_nan_fields_pass :
  (isinf inf = true
   /\ base (mkShapes (Some (of_int 2)) (Some inf) None None None) = Some inf
   /\ post pow_rounded strerror_glibc circle
           (mkShapes (Some (of_int 2)) (Some inf) None None None) self0
      = (Returned [("area", S754_finite false 7074237752028440 (-49));
                   ("circumference", S754_finite false 7074237752028440 (-49))],
         self0))
  /\ (isnan nan = true
      /\ base (mkShapes (Some (of_int 2)) (Some nan) None None None) = Some nan
      /\ post pow_rounded strerror_glibc circle
              (mkShapes (Some (of_int 2)) (Some nan) None None None) self0
         = (Returned [("area", S754_finite false 7074237752028440 (-49));
                      ("circumference", S754_finite false 7074237752028440 (-49))],
            self0))
  /\ post pow_rounded strerror_glibc rectangle (with_sides inf inf) self0
     = (Returned [("area", inf); ("perimeter", inf)], self0).
Proof. repeat split. Qed.

(** C2, at the radius 2: area and circumference are both four pi,
    12.566370614359172. *)
Lemma circle_formulas_witness :
  post pow_rounded strerror_glibc circle (with_radius (of_int 2)) self0
  = (Returned [("area", S754_finite false 7074237752028440 (-49));
               ("circumference", S754_finite false 7074237752028440 (-49))],
     self0).
Proof.
  exact (circle_formulas pow_rounded strerror_glibc (of_int 2) self0 eq_refl).
Defined.

(** C2 as stated fails: the radius 1e200 is greater than zero, and the
    circle route answers with the 500 error instead of an area. *)
Lemma huge_radius_raises :
  well_formed ten_to_200 = true
  /\ (of_int 0 <? ten_to_200)%f64 = true
  /\ isfinite ten_to_200 = true
  /\ post pow_rounded strerror_glibc circle (with_radius ten_to_200) self0
     = (Raised (HTTPException 500 "(34, 'Numerical result out of range')"), self0).
Proof. repeat split; vm_compute; reflexivity. Qed.

(** C3, at length 3 and width 4. *)
Lemma rectangle_formulas_witness :
  post pow_rounded strerror_glibc rectangle (with_sides (of_int 3) (of_int 4)) self0
  = (Returned [("area", (of_int 3 * of_int 4)%f64);
               ("perimeter", (of_int 2 * (of_int 3 + of_int 4))%f64)], self0).
Proof.
  apply (proj1 (rectangle_formulas pow_rounded strerror_glibc)); reflexivity.
Defined.

(** C4, at base 5 and height 10. *)
Lemma triangle_formulas_witness :
  post pow_rounded strerror_glibc triangle
       (with_base_height (of_int 5) (of_int 10)) self0
  = (Returned [("area", (int_truediv 1 2 * of_int 10 * of_int 5)%f64)], self0).
Proof.
  apply (proj1 (triangle_formulas pow_rounded strerror_glibc)); reflexivity.
Defined.

(** C4 as stated fails: base 1e300 and height 5e-324 are both greater
    than zero; halving the height rounds to zero, so the route returns
    the area 0.0, while 0.5 * base * height, multiplied in that order,
    is about 2.47e-24. *)
Lemma subnormal_height_halved_to_zero :
  well_formed ten_to_300 = true
  /\ well_formed min_subnormal = true
  /\ valid_input triangle (with_base_height ten_to_300 min_subnormal) = true
  /\ post pow_rounded strerror_glibc triangle
          (with_base_height ten_to_300 min_subnormal) self0
     = (Returned [("area", S754_zero false)], self0)
  /\ (int_truediv 1 2 * ten_to_300 * min_subnormal)%f64
     = S754_finite false 6724873095247260 (-131).
Proof. repeat split; vm_compute; reflexivity. Qed.

(** C5, at the empty body. *)
Lemma missing_radius_reported_witness :
  post pow_rounded strerror_glibc circle empty_body self0
  = (Raised (HTTPException 400 "Radius is required"), self0).
Proof.
  apply (missing_radius_reported pow_rounded strerror_glibc empty_body self0);
    reflexivity.
Defined.

(** C5 as stated fails: a circle request without radius and with a
    width of 0 is answered with the validation error of the width. *)
Lemma missing_radius_with_zero_width :
  radius (mkShapes None None None None (Some (of_int 0))) = None
  /\ post pow_rounded strerror_glibc circle
          (mkShapes None None None None (Some (of_int 0))) self0
     = (Unprocessable [rejection f_width (of_int 0)], self0).
Proof. split; reflexivity. Qed.

(** C6, at a circle request that carries only a base of -1. *)
Lemma validation_precedes_presence_witness :
  (forall f x,
      getattr (mkShapes None (Some minus_one) None None None) f = Some x ->
      (x <=? of_int 0)%f64 = true ->
      exists errors,
        post pow_rounded strerror_glibc circle
             (mkShapes None (Some minus_one) None None None) self0
        = (Unprocessable errors, self0)
        /\ In (rejection f x) errors)
  /\ (accepted (mkShapes None (Some minus_one) None None None) = true <->
      post pow_rounded strerror_glibc circle
           (mkShapes None (Some minus_one) None None None) self0
      = (Raised (HTTPException 400 (required_detail circle)), self0)).
Proof.
  apply (validation_precedes_presence pow_rounded strerror_glibc circle
           (mkShapes None (Some minus_one) None None None) self0).
  reflexivity.
Defined.

(** C6 as stated fails: the body lacks the radius the circle route
    requires and carries a base of -1; the failure reported is the
    validation error of the base, not the missing radius. *)
Lemma negative_base_reported_first :
  lacks_required circle (mkShapes None (Some minus_one) None None None) = true
  /\ (minus_one <=? of_int 0)%f64 = true
  /\ post pow_rounded strerror_glibc circle
          (mkShapes None (Some minus_one) None None None) self0
     = (Unprocessable [rejection f_base minus_one], self0).
Proof. repeat split. Qed.

(** C7, at the radius 2. *)
Lemma result_fields_exact_witness :
  keys [("area", S754_finite false 7074237752028440 (-49));
        ("circumference", S754_finite false 7074237752028440 (-49))]
  = result_keys circle.
Proof.
  apply (proj1 (result_fields_exact pow_rounded strerror_glibc circle
                  (with_radius (of_int 2)) self0) _ self0).
  reflexivity.
Defined.

(** C9, at the radius 2. *)
Lemma valid_input_outcome_witness :
  (exists result,
      post pow_rounded strerror_glibc circle (with_radius (of_int 2)) self0
      = (Returned result, self0)
      /\ keys result = result_keys circle)
  \/ (circle = circle
      /\ exists x e,
          radius (with_radius (of_int 2)) = Some x
          /\ float_pow_2 pow_rounded strerror_glibc x = inl e
          /\ post pow_rounded strerror_glibc circle (with_radius (of_int 2)) self0
             = (Raised (HTTPException 500 (str e)), self0)).
Proof.
  apply (valid_input_outcome pow_rounded strerror_glibc circle
           (with_radius (of_int 2)) self0).
  reflexivity.
Defined.

(** C9 as stated fails: the radius 2^512 is present, finite and greater
    than zero, so the input is valid, and the circle handler takes its
    500 branch. *)
Lemma valid_radius_takes_500_branch :
  well_formed two_to_512 = true
  /\ valid_input circle (with_radius two_to_512) = true
  /\ post pow_rounded strerror_glibc circle (with_radius two_to_512) self0
     = (Raised (HTTPException 500 "(34, 'Numerical result out of range')"), self0).
Proof. repeat split; vm_compute; reflexivity. Qed.

(** C10, at two circle requests of radius 2, one of which also carries
    a base, a height, a length and a width. *)
Lemma result_depends_on_required_fields_witness :
  post pow_rounded strerror_glibc circle (with_radius (of_int 2)) self0
  = post pow_rounded strerror_glibc circle
         (mkShapes (Some (of_int 2)) (Some (of_int 5)) (Some (of_int 10))
                   (Some (of_int 3)) (Some (of_int 4))) self0.
Proof.
  apply (result_depends_on_required_fields pow_rounded strerror_glibc circle).
  - reflexivity.
  - reflexivity.
  - intros f [<- | []]. reflexivity.
Defined.

(** ** Instances of the further properties *)

Lemma pow_rounded_nonneg (y : float) :
  positive_finite y = true ->
  (of_int 0 <=? fst (pow_rounded y (of_int 2)))%f64 = true.
Proof.
  intros Hy. unfold pow_rounded.
  change (of_int 2 =? of_int 2)%f64 with true. cbn [fst].
  apply mul_pos_pos; now apply positive_finite_ltb.
Qed.

(** X2, at height 10 and base 5. *)
Lemma triangle_area_arguments_swap_witness :
  triangle_area (of_int 10) (of_int 5) self0
  = triangle_area (of_int 5) (of_int 10) self0.
Proof.
  apply (triangle_area_arguments_swap (of_int 10) (of_int 5) self0);
    reflexivity.
Defined.

(** X3, at a rectangle of sides 3 and 4. *)
Lemma valid_results_nonnegative_witness :
  nonnegative_values [("area", of_int 12); ("perimeter", of_int 14)].
Proof.
  apply (valid_results_nonnegative pow_rounded strerror_glibc rectangle
           (with_sides (of_int 3) (of_int 4)) self0 self0).
  - discriminate.
  - reflexivity.
  - reflexivity.
Defined.

(** X4, at a circle of radius 2 and the correctly rounding library. *)
Lemma circle_results_nonnegative_witness :
  nonnegative_values
    [("area", S754_finite false 7074237752028440 (-49));
     ("circumference", S754_finite false 7074237752028440 (-49))].
Proof.
  apply (circle_results_nonnegative pow_rounded strerror_glibc
           (with_radius (of_int 2)) self0 self0).
  - exact pow_rounded_nonneg.
  - reflexivity.
  - reflexivity.
Defined.

(** X5, at a body with a radius of -1 and a width of 0. *)
Lemma validation_errors_listed_witness :
  post pow_rounded strerror_glibc triangle
       (mkShapes (Some minus_one) None None None (Some (of_int 0))) self0
  = (Unprocessable [rejection f_radius minus_one; rejection f_width (of_int 0)],
     self0).
Proof.
  apply (validation_errors_listed pow_rounded strerror_glibc triangle
           (mkShapes (Some minus_one) None None None (Some (of_int 0))) self0).
  reflexivity.
Defined.

(** X6, at the empty body on the rectangle route. *)
Lemma raised_only_http_witness :
  (lacks_required rectangle empty_body = true
   /\ HTTPException 400 "Length and width are required"
      = HTTPException 400 (required_detail rectangle))
  \/ (rectangle = circle
      /\ exists x e0,
          radius empty_body = Some x
          /\ float_pow_2 pow_rounded strerror_glibc x = inl e0
          /\ HTTPException 400 "Length and width are required"
             = HTTPException 500 (str e0)).
Proof.
  apply (raised_only_http pow_rounded strerror_glibc rectangle empty_body
           self0 self0).
  reflexivity.
Defined.

(** X9, at a body of radius 2. *)
Lemma instance_invariant_witness :
  with_radius (of_int 2) = with_radius (of_int 2)
  /\ forall f x,
      getattr (with_radius (of_int 2)) f = Some x ->
      (x <=? of_int 0)%f64 = false.
Proof.
  apply (instance_invariant (with_radius (of_int 2))). reflexivity.
Defined.

(** X10, at the radius 1e200. *)
Lemma circle_500_needs_finite_radius_witness :
  exists x,
    radius (with_radius ten_to_200) = Some x
    /\ isfinite x = true
    /\ (of_int 0 <? x)%f64 = true
    /\ x <> of_int 1.
Proof.
  apply (circle_500_needs_finite_radius pow_rounded strerror_glibc
           (with_radius ten_to_200) self0 self0
           "(34, 'Numerical result out of range')").
  vm_compute. reflexivity.
Defined.

(** X12, at sides 3 and 4. *)
Lemma rectangle_whole_numbers_witness :
  post pow_rounded strerror_glibc rectangle
       (with_sides (of_int 3) (of_int 4)) self0
  = (Returned [("area", of_int (3 * 4)); ("perimeter", of_int (2 * (3 + 4)))],
     self0).
Proof.
  apply (rectangle_whole_numbers pow_rounded strerror_glibc 3 4 self0);
    reflexivity.
Defined.

(** X13, at base 5 and height 10. *)
Lemma triangle_whole_numbers_witness :
  post pow_rounded strerror_glibc triangle
       (with_base_height (of_int 5) (of_int 10)) self0
  = (Returned [("area", of_int 25)], self0).
Proof.
  apply (proj2 (triangle_whole_numbers pow_rounded strerror_glibc 5 10 self0
                  eq_refl eq_refl eq_refl) 25).
  reflexivity.
Defined.
